(** * Tremor detection on an MPU6050: acquisition and classification

    A shallow embedding of the two analysis scripts of the repository,

    - [mpu6050_tremor_detection.py], the resting-tremor variant
      (module [Mpu6050] below), and
    - [spiral.py], the action-tremor variant (module [Spiral]),

    followed by the properties of the acquisition and classification
    pipeline that their specification states.

    Numeric model.  Python integers are [Z].  The scripts compute on
    IEEE doubles.  Where a value only flows through sums, quotients
    and comparisons with literals it is a [Q]: a finite double is
    read, like a literal of the source, as the decimal it prints, and
    arithmetic is exact, so that the comparisons [<], [<=], [>] are
    the decidable comparisons of [Q] and a computed value is the
    script's up to rounding.  NaN and infinities are outside this
    model.

    Two decisions of the scripts hang on the rounding of one
    operation: the mean [(a + g) / 2] that the resting assessment
    compares with 0.15, and the products [RATIO_MILD*0.7] and
    [RMS_ACCEL_MILD*0.7] of the tuning suggestion.  Those lines are
    embedded on binary64 itself, in the modules [Mpu6050_float64] and
    [Spiral_float64]. *)

From Stdlib Require Import Floats.
From Stdlib Require Import Ascii String.
From Stdlib Require Import ZArith QArith Qabs List Bool Arith Lia Lqa.
Import ListNotations.

Set Warnings "-inexact-float".

(* ================================================================== *)
(** * Definitions *)
(* ================================================================== *)

(** ** Comparisons on numbers, as booleans *)

Module Num.

Definition leb (x y : Q) : bool := Qle_bool x y.
Definition ltb (x y : Q) : bool := negb (Qle_bool y x).
Definition gtb (x y : Q) : bool := ltb y x.
Definition geb (x y : Q) : bool := leb y x.

(** Python's chained comparison [lo <= x <= hi]. *)
Definition between (lo x hi : Q) : bool := leb lo x && leb x hi.

End Num.

Declare Scope num_scope.
Delimit Scope num_scope with num.
Infix "<=?" := Num.leb (at level 70, no associativity) : num_scope.
Infix "<?" := Num.ltb (at level 70, no associativity) : num_scope.
Infix ">?" := Num.gtb (at level 70, no associativity) : num_scope.
Infix ">=?" := Num.geb (at level 70, no associativity) : num_scope.

(** ** The device bus

    [smbus2.SMBus.read_byte_data] and [time.sleep] are the two effects
    of the acquisition phase.  The world holds what the bus will answer
    to each transaction (numbered from the start of the run), how many
    transactions were made and every duration slept, latest first. *)

Module Smbus.

(** The exceptions the scripts tell apart: [OSError] is what a failed
    bus transaction raises and what the retry wrapper catches;
    [KeyboardInterrupt] has a handler of its own at top level; any
    other exception is an [OtherException]. *)
Inductive exn : Type :=
| OSError
| KeyboardInterrupt
| OtherException.

Inductive result (A : Type) : Type :=
| Return (a : A)
| Raise (e : exn).
Arguments Return {A} a.
Arguments Raise {A} e.

Record World : Type := mkWorld {
  oracle : nat -> Z -> Z -> result Z;
  transactions : nat;
  slept : list Q
}.

(** Effectful code: a state and exception monad over the world. *)
Definition IO (A : Type) : Type := World -> result A * World.

Definition ret {A} (a : A) : IO A := fun w => (Return a, w).

Definition raise {A} (e : exn) : IO A := fun w => (Raise e, w).

Definition bind {A B} (m : IO A) (k : A -> IO B) : IO B :=
  fun w =>
    match m w with
    | (Return a, w') => k a w'
    | (Raise e, w') => (Raise e, w')
    end.

(** [try: m except OSError: h], other exceptions pass through. *)
Definition catch_OSError {A} (m : IO A) (h : IO A) : IO A :=
  fun w =>
    match m w with
    | (Raise OSError, w') => h w'
    | r => r
    end.

Definition read_byte_data (addr reg : Z) : IO Z :=
  fun w =>
    (oracle w (transactions w) addr reg,
     mkWorld (oracle w) (S (transactions w)) (slept w)).

Definition sleep (seconds : Q) : IO unit :=
  fun w =>
    (Return tt, mkWorld (oracle w) (transactions w) (seconds :: slept w)).

End Smbus.

Declare Scope io_scope.
Delimit Scope io_scope with io.
Notation "x <- m ;; k" := (Smbus.bind m (fun x => k))
  (at level 61, m at next level, right associativity) : io_scope.
Notation "m ;;; k" := (Smbus.bind m (fun _ => k))
  (at level 61, right associativity) : io_scope.

(** ** What both scripts share

    The helper that decodes a register pair, the conversion to physical
    units, the sample buffers and the spectral scalars are written out
    twice in the repository, once per script and, for the scalars, once
    per sensor; the text is the same each time, so each is embedded
    once here and used by both variants. *)

Module Common.

Import Smbus.

Definition SAMPLE_RATE : Z := 100.

(** The body of [read_word_2c] and of [read_word_2c_safe] after the
    two byte reads. *)
Definition word_2c (high low : Z) : Z :=
  let val := (Z.shiftl high 8 + low)%Z in
  if (val >=? 0x8000)%Z then (- ((65535 - val) + 1))%Z else val.

(** Accelerometer: +-2g range, 16384 LSB/g. *)
Definition accel_units (raw : Z) : Q := (inject_Z raw / 16384) * 9.81.

(** Gyroscope: +-250 deg/s range, 131 LSB/(deg/s). *)
Definition gyro_units (raw : Z) : Q := inject_Z raw / 131.

Record Sample : Type := mkSample {
  ax : Q; ay : Q; az : Q;
  gx : Q; gy : Q; gz : Q
}.

(** A value read from the device: an integer, or Python's [None]
    (what a function returns when it falls off its end).  Dividing
    [None] raises [TypeError]. *)
Definition to_units (units : Z -> Q) (raw : option Z) : IO Q :=
  match raw with
  | Some r => ret (units r)
  | None => raise OtherException
  end.

(** One iteration of the acquisition loop up to the conversion, for a
    given word reader: six reads, registers 0x3B..0x40 and
    0x43..0x48, then the six conversions. *)
Definition read_sample (read_word : Z -> Z -> IO (option Z))
           (address : Z) : IO Sample :=
  (accel_x <- read_word address 0x3B%Z ;;
   accel_y <- read_word address 0x3D%Z ;;
   accel_z <- read_word address 0x3F%Z ;;
   gyro_x <- read_word address 0x43%Z ;;
   gyro_y <- read_word address 0x45%Z ;;
   gyro_z <- read_word address 0x47%Z ;;
   ax <- to_units accel_units accel_x ;;
   ay <- to_units accel_units accel_y ;;
   az <- to_units accel_units accel_z ;;
   gx <- to_units gyro_units gyro_x ;;
   gy <- to_units gyro_units gyro_y ;;
   gz <- to_units gyro_units gyro_z ;;
   ret (mkSample ax ay az gx gy gz))%io.

(** [collections.deque(maxlen=n).append]: once full, the oldest
    element falls off the left end. *)
Definition deque_append {A} (maxlen : nat) (buf : list A) (x : A)
  : list A :=
  if (length buf <? maxlen)%nat then buf ++ [x]
  else match maxlen with
       | O => []
       | S _ => tl buf ++ [x]
       end.

(** [while len(buffer_ax) < WINDOW_SIZE: ...; time.sleep(1/SAMPLE_RATE)].
    The six buffers are appended to together, so they are one buffer
    of samples.  [fuel] bounds the number of iterations. *)
Fixpoint collect (read_word : Z -> Z -> IO (option Z)) (address : Z)
         (window_size : nat) (fuel : nat) (buf : list Sample)
  : IO (option (list Sample)) :=
  if (length buf <? window_size)%nat then
    match fuel with
    | O => ret None
    | S fuel' =>
        (s <- read_sample read_word address ;;
         sleep (1 / inject_Z SAMPLE_RATE) ;;;
         collect read_word address window_size fuel'
                 (deque_append window_size buf s))%io
    end
  else ret (Some buf).

(** How a run ends: the [try] around acquisition and analysis has one
    handler for [KeyboardInterrupt] and one for every [Exception]. *)
Inductive Outcome (A : Type) : Type :=
| Analysed (a : A)
| StoppedByUser
| Error (e : exn).
Arguments Analysed {A} a.
Arguments StoppedByUser {A}.
Arguments Error {A} e.

Definition handle {A} (r : result A) : Outcome A :=
  match r with
  | Return a => Analysed a
  | Raise KeyboardInterrupt => StoppedByUser
  | Raise e => Error e
  end.

End Common.

(** ** The NumPy operations the scripts use, on lists *)

Module Numpy.

(** [arr[mask]] for a boolean [mask]: the elements where the mask
    holds; [IndexError] ([None] here) when the lengths differ. *)
Fixpoint boolean_index {A} (arr : list A) (mask : list bool)
  : option (list A) :=
  match arr, mask with
  | [], [] => Some []
  | a :: arr', b :: mask' =>
      match boolean_index arr' mask' with
      | Some sel => Some (if b then a :: sel else sel)
      | None => None
      end
  | _, _ => None
  end.

Definition sum (l : list Q) : Q := fold_left Qplus l 0.

(** The scan behind [np.argmax]: the running best is replaced only
    by a strictly greater value, so the first maximum wins. *)
Fixpoint argmax_from (best_idx : nat) (best : Q) (idx : nat)
         (l : list Q) : nat :=
  match l with
  | [] => best_idx
  | x :: l' =>
      if (best <? x)%num then argmax_from idx x (S idx) l'
      else argmax_from best_idx best (S idx) l'
  end.

(** [np.argmax]; [ValueError] ([None]) on an empty sequence. *)
Definition argmax (l : list Q) : option nat :=
  match l with
  | [] => None
  | x :: l' => Some (argmax_from 0 x 1 l')
  end.

End Numpy.

(** ** Spectral scalars (both scripts, both sensors) *)

Module Spectral.

(** [(freqs >= 4) & (freqs <= 6)] *)
Definition tremor_band (freqs : list Q) : list bool :=
  map (fun f => (f >=? 4)%num && (f <=? 6)%num) freqs.

(** [np.sum(psd[tremor_band])] *)
Definition tremor_power (freqs psd : list Q) : option Q :=
  option_map Numpy.sum (Numpy.boolean_index psd (tremor_band freqs)).

(** [np.sum(psd[freqs <= 15])] *)
Definition total_power (freqs psd : list Q) : option Q :=
  option_map Numpy.sum
    (Numpy.boolean_index psd (map (fun f => (f <=? 15)%num) freqs)).

(** [tremor_power / total_power if total_power > 0 else 0] *)
Definition tremor_ratio (freqs psd : list Q) : option Q :=
  match tremor_power freqs psd with
  | Some tremor =>
      match total_power freqs psd with
      | Some total =>
          Some (if (total >? 0)%num then tremor / total else 0)
      | None => None
      end
  | None => None
  end.

(** [freqs[freqs <= 10][np.argmax(psd[freqs <= 10])]] *)
Definition peak_freq (freqs psd : list Q) : option Q :=
  let mask := map (fun f => (f <=? 10)%num) freqs in
  match Numpy.boolean_index psd mask with
  | Some sel =>
      match Numpy.argmax sel with
      | Some peak_idx =>
          match Numpy.boolean_index freqs mask with
          | Some fsel => nth_error fsel peak_idx
          | None => None
          end
      | None => None
      end
  | None => None
  end.

End Spectral.

(** ** [mpu6050_tremor_detection.py]: the resting-tremor variant *)

Module Mpu6050.

Import Smbus Common.

Definition address : Z := 0x68.
Definition WINDOW_SECONDS : Z := 4.
Definition WINDOW_SIZE : Z := SAMPLE_RATE * WINDOW_SECONDS.

(** [read_word_2c]: two byte reads, no handler around them. *)
Definition read_word_2c (addr reg : Z) : IO Z :=
  (high <- read_byte_data addr reg ;;
   low <- read_byte_data addr (reg + 1)%Z ;;
   ret (word_2c high low))%io.

(** [read_word_2c] as a reader of values: what it returns is never
    [None]. *)
Definition read_word (addr reg : Z) : IO (option Z) :=
  (v <- read_word_2c addr reg ;; ret (Some v))%io.

(** The acquisition loop, from empty buffers. *)
Definition acquire : IO (option (list Sample)) :=
  collect read_word address
          (Z.to_nat WINDOW_SIZE) (Z.to_nat WINDOW_SIZE) [].

Inductive Status : Type :=
| TREMOR_DETECTED
| POSSIBLE_TREMOR
| NO_TREMOR.

Inductive TremorType : Type :=
| ROTATIONAL
| LINEAR.

(** The mean of the two ratios, exact.  The script rounds the sum:
    [Mpu6050_float64.combined_ratio] is the mean it compares. *)
Definition combined_ratio (tremor_ratio_accel tremor_ratio_gyro : Q) : Q :=
  (tremor_ratio_accel + tremor_ratio_gyro) / 2.

(** The condition of the first branch of the assessment; the report
    tests it a second time before it writes the type. *)
Definition detected (tremor_ratio_accel tremor_ratio_gyro
                     peak_freq_accel peak_freq_gyro : Q) : bool :=
  ((tremor_ratio_accel >? 0.3)%num || (tremor_ratio_gyro >? 0.3)%num)
  && (Num.between 4 peak_freq_accel 6 || Num.between 4 peak_freq_gyro 6).

Definition tremor_status (tremor_ratio_accel tremor_ratio_gyro
                          peak_freq_accel peak_freq_gyro : Q) : Status :=
  if detected tremor_ratio_accel tremor_ratio_gyro
              peak_freq_accel peak_freq_gyro
  then TREMOR_DETECTED
  else if (combined_ratio tremor_ratio_accel tremor_ratio_gyro >? 0.15)%num
       then POSSIBLE_TREMOR
       else NO_TREMOR.

(** The "Predominantly ROTATIONAL / LINEAR" line, printed and written
    to the report only when tremor is detected. *)
Definition tremor_type (tremor_ratio_accel tremor_ratio_gyro
                        peak_freq_accel peak_freq_gyro : Q)
  : option TremorType :=
  if detected tremor_ratio_accel tremor_ratio_gyro
              peak_freq_accel peak_freq_gyro
  then Some (if (tremor_ratio_gyro >? tremor_ratio_accel)%num
             then ROTATIONAL else LINEAR)
  else None.

Record Assessment : Type := mkAssessment {
  tremor_ratio_accel : Q;
  tremor_ratio_gyro : Q;
  peak_freq_accel : Q;
  peak_freq_gyro : Q;
  status : Status;
  type : option TremorType
}.

(** From the two Welch estimates to the assessment; [None] when a
    NumPy operation raises. *)
Definition assess (freqs_accel psd_accel freqs_gyro psd_gyro : list Q)
  : option Assessment :=
  match Spectral.tremor_ratio freqs_accel psd_accel,
        Spectral.tremor_ratio freqs_gyro psd_gyro,
        Spectral.peak_freq freqs_accel psd_accel,
        Spectral.peak_freq freqs_gyro psd_gyro with
  | Some ra, Some rg, Some pa, Some pg =>
      Some (mkAssessment ra rg pa pg
              (tremor_status ra rg pa pg) (tremor_type ra rg pa pg))
  | _, _, _, _ => None
  end.

End Mpu6050.

(** ** [spiral.py]: the action-tremor variant *)

Module Spiral.

Import Smbus Common.

Definition address : Z := 0x68.
Definition WINDOW_SECONDS : Z := 10.
Definition WINDOW_SIZE : Z := SAMPLE_RATE * WINDOW_SECONDS.

Definition RATIO_SIGNIFICANT : Q := 0.35.
Definition RATIO_MILD : Q := 0.20.
Definition RMS_ACCEL_SIGNIFICANT : Q := 0.50.
Definition RMS_ACCEL_MILD : Q := 0.35.
Definition RMS_GYRO_SIGNIFICANT : Q := 18.
Definition RMS_GYRO_MILD : Q := 10.

(** [for attempt in range(max_retries)]: [todo] iterations are left,
    [attempt] is the loop variable.  A word is read inside a [try];
    on [OSError] the loop sleeps and goes on unless this was the last
    attempt, where it raises again.  When the loop ends without a
    [return] the function returns [None]. *)
Fixpoint read_word_2c_safe_loop (addr reg : Z) (max_retries : nat)
         (todo attempt : nat) : IO (option Z) :=
  match todo with
  | O => ret None
  | S todo' =>
      catch_OSError
        (high <- read_byte_data addr reg ;;
         low <- read_byte_data addr (reg + 1)%Z ;;
         ret (Some (word_2c high low)))%io
        (if (Z.of_nat attempt <? Z.of_nat max_retries - 1)%Z
         then (sleep 0.01 ;;;
               read_word_2c_safe_loop addr reg max_retries todo'
                                      (S attempt))%io
         else raise OSError)
  end.

Definition read_word_2c_safe_with (max_retries : nat) (addr reg : Z)
  : IO (option Z) :=
  read_word_2c_safe_loop addr reg max_retries max_retries 0.

(** Every call leaves [max_retries] at its default, 3. *)
Definition read_word_2c_safe : Z -> Z -> IO (option Z) :=
  read_word_2c_safe_with 3.

Definition acquire : IO (option (list Sample)) :=
  collect read_word_2c_safe address
          (Z.to_nat WINDOW_SIZE) (Z.to_nat WINDOW_SIZE) [].

Inductive Status : Type :=
| SIGNIFICANT_ACTION_TREMOR
| MILD_ACTION_TREMOR
| NO_SIGNIFICANT_TREMOR.

Definition high_tremor_ratio (tremor_ratio_accel tremor_ratio_gyro : Q)
  : bool :=
  (tremor_ratio_accel >? RATIO_SIGNIFICANT)%num
  || (tremor_ratio_gyro >? RATIO_SIGNIFICANT)%num.

Definition correct_frequency (peak_freq_accel peak_freq_gyro : Q) : bool :=
  Num.between 4 peak_freq_accel 6 || Num.between 4 peak_freq_gyro 6.

Definition high_amplitude (tremor_rms_accel tremor_rms_gyro : Q) : bool :=
  (tremor_rms_accel >? RMS_ACCEL_SIGNIFICANT)%num
  || (tremor_rms_gyro >? RMS_GYRO_SIGNIFICANT)%num.

Definition moderate_tremor_ratio
           (tremor_ratio_accel tremor_ratio_gyro : Q) : bool :=
  (tremor_ratio_accel >? RATIO_MILD)%num
  || (tremor_ratio_gyro >? RATIO_MILD)%num.

Definition moderate_amplitude (tremor_rms_accel tremor_rms_gyro : Q)
  : bool :=
  (tremor_rms_accel >? RMS_ACCEL_MILD)%num
  || (tremor_rms_gyro >? RMS_GYRO_MILD)%num.

Definition tremor_status
           (tremor_ratio_accel tremor_ratio_gyro
            tremor_rms_accel tremor_rms_gyro
            peak_freq_accel peak_freq_gyro : Q) : Status :=
  if correct_frequency peak_freq_accel peak_freq_gyro
     && (high_tremor_ratio tremor_ratio_accel tremor_ratio_gyro
         || high_amplitude tremor_rms_accel tremor_rms_gyro)
  then SIGNIFICANT_ACTION_TREMOR
  else if correct_frequency peak_freq_accel peak_freq_gyro
          && (moderate_tremor_ratio tremor_ratio_accel tremor_ratio_gyro
              || moderate_amplitude tremor_rms_accel tremor_rms_gyro)
       then MILD_ACTION_TREMOR
       else NO_SIGNIFICANT_TREMOR.

Record Assessment : Type := mkAssessment {
  tremor_ratio_accel : Q;
  tremor_ratio_gyro : Q;
  peak_freq_accel : Q;
  peak_freq_gyro : Q;
  status : Status
}.

(** From the two Welch estimates and the two RMS amplitudes of the
    filtered series to the assessment. *)
Definition assess (freqs_accel psd_accel freqs_gyro psd_gyro : list Q)
           (tremor_rms_accel tremor_rms_gyro : Q) : option Assessment :=
  match Spectral.tremor_ratio freqs_accel psd_accel,
        Spectral.tremor_ratio freqs_gyro psd_gyro,
        Spectral.peak_freq freqs_accel psd_accel,
        Spectral.peak_freq freqs_gyro psd_gyro with
  | Some ra, Some rg, Some pa, Some pg =>
      Some (mkAssessment ra rg pa pg
              (tremor_status ra rg tremor_rms_accel tremor_rms_gyro pa pg))
  | _, _, _, _ => None
  end.

End Spiral.

(** ** The vocabulary of the specification

    What the specification says in its own words, to state the
    properties against; no definition here uses the functions of the
    scripts. *)

Module Spec.

Import Smbus.

(** The two's-complement value of a 16-bit word: bit 15 is the sign. *)
Definition twos_complement16 (w : Z) : Z :=
  if Z.testbit w 15 then (w - 2 ^ 16)%Z else w.

(** The 16-bit word of a register pair. *)
Definition word16 (high low : Z) : Z := (high * 256 + low)%Z.

(** The sum of the power values whose frequency is one to [keep]. *)
Fixpoint power_where (keep : Q -> bool) (freqs power : list Q) : Q :=
  match freqs, power with
  | f :: freqs', p :: power' =>
      (if keep f then p else 0) + power_where keep freqs' power'
  | _, _ => 0
  end.

(** "band_power(freqs, power, lo, hi) = sum of power values whose
    frequency falls in [lo, hi]". *)
Definition band_power (lo hi : Q) (freqs power : list Q) : Q :=
  power_where (fun f => Qle_bool lo f && Qle_bool f hi) freqs power.

(** The bins of a spectrum whose frequency is at most [max_hz], in
    the order of the spectrum. *)
Definition bins_upto (max_hz : Q) (freqs power : list Q) : list (Q * Q) :=
  filter (fun bin => Qle_bool (fst bin) max_hz) (combine freqs power).

(** "Standard argmax semantics": position [i] of [l] holds a maximum
    and no earlier position holds one. *)
Definition first_maximum (l : list Q) (i : nat) : Prop :=
  exists x,
    nth_error l i = Some x
    /\ (forall j y, nth_error l j = Some y -> y <= x)
    /\ (forall j y, (j < i)%nat -> nth_error l j = Some y -> y < x).

(** Frequencies in strictly ascending order. *)
Fixpoint ascending (freqs : list Q) : Prop :=
  match freqs with
  | [] => True
  | f :: freqs' => Forall (fun f' => f < f') freqs' /\ ascending freqs'
  end.

(** "Retry locally up to a fixed bound with fixed short backoff; if
    exhausted, escalate": [budget] retries are left. *)
Fixpoint retry {A} (budget : nat) (backoff : Q) (body : IO A) : IO A :=
  fun w =>
    match body w with
    | (Raise OSError, w') =>
        match budget with
        | O => (Raise OSError, w')
        | S budget' =>
            retry budget' backoff body (snd (sleep backoff w'))
        end
    | r => r
    end.



End Spec.

(** ** Buses to read from

    Conditions on what the bus answers, and two concrete buses. *)

Module Scenario.

Import Smbus.

(** A bus whose every transaction succeeds and answers the content
    of a register file. *)
Definition steady (regs : Z -> Z) (w : World) : Prop :=
  forall n addr reg, oracle w n addr reg = Return (regs reg).

(** The next two transactions, on registers [reg] and [reg + 1],
    succeed and answer [high] and [low]. *)
Definition answers (w : World) (addr reg high low : Z) : Prop :=
  oracle w (transactions w) addr reg = Return high
  /\ oracle w (S (transactions w)) addr (reg + 1)%Z = Return low.

(** A register file: 0xFF38 at 0x3B, 0x0010 at 0x3D, 0x4000 at 0x3F
    (one g), 0x8000 at 0x43, 0x7FFF at 0x45, 0x0083 at 0x47. *)
Definition sample_registers (reg : Z) : Z :=
  match reg with
  | 0x3B => 0xFF | 0x3C => 0x38
  | 0x3D => 0x00 | 0x3E => 0x10
  | 0x3F => 0x40 | 0x40 => 0x00
  | 0x43 => 0x80 | 0x44 => 0x00
  | 0x45 => 0x7F | 0x46 => 0xFF
  | 0x47 => 0x00 | 0x48 => 0x83
  | _ => 0
  end%Z.

(** A reader that behaves on a steady bus as the two readers do. *)
Definition reads_steadily (read_word : Z -> Z -> IO (option Z)) : Prop :=
  forall regs w addr reg,
    steady regs w ->
    read_word addr reg w
    = (Return (Some (Common.word_2c (regs reg) (regs (reg + 1)%Z))),
       mkWorld (oracle w) (S (S (transactions w))) (slept w)).

(** A bus that fails its next [k] transactions with [OSError] and
    answers from a register file afterwards. *)
Definition flaky (k : nat) (regs : Z -> Z) : World :=
  mkWorld (fun n _ reg =>
             if (n <? k)%nat then Raise OSError else Return (regs reg))
          0 [].

End Scenario.

(** ** Buses that stream data, and buses with sparse faults *)

Module Stream.

Import Smbus Common.

(** A bus without faults whose answer to transaction [n] on register
    [reg] is [data n reg]: the registers change between reads. *)
Definition streaming (data : nat -> Z -> Z) (w : World) : Prop :=
  forall n addr reg, oracle w n addr reg = Return (data n reg).

(** The sample whose twelve byte reads are the transactions [t],
    [t + 1], ..., [t + 11] of a streaming bus. *)
Definition sample_at (data : nat -> Z -> Z) (t : nat) : Sample :=
  mkSample
    (accel_units (word_2c (data t 0x3B%Z) (data (1 + t)%nat 0x3C%Z)))
    (accel_units (word_2c (data (2 + t)%nat 0x3D%Z) (data (3 + t)%nat 0x3E%Z)))
    (accel_units (word_2c (data (4 + t)%nat 0x3F%Z) (data (5 + t)%nat 0x40%Z)))
    (gyro_units (word_2c (data (6 + t)%nat 0x43%Z) (data (7 + t)%nat 0x44%Z)))
    (gyro_units (word_2c (data (8 + t)%nat 0x45%Z) (data (9 + t)%nat 0x46%Z)))
    (gyro_units (word_2c (data (10 + t)%nat 0x47%Z) (data (11 + t)%nat 0x48%Z))).

(** The window of [n] samples read back to back from transaction [t]. *)
Definition window_from (data : nat -> Z -> Z) (t n : nat) : list Sample :=
  map (fun i => sample_at data (t + 12 * i)) (seq 0 n).

(** A bus holding a register file, whose transaction [n] fails with
    [OSError] exactly when [fails n]. *)
Definition faulty (fails : nat -> bool) (regs : Z -> Z) (w : World) : Prop :=
  forall n addr reg,
    oracle w n addr reg
    = if fails n then Raise OSError else Return (regs reg).

(** At most two of any six consecutive transactions fail. *)
Definition sparse (fails : nat -> bool) : Prop :=
  forall n,
    (Nat.b2n (fails n) + Nat.b2n (fails (1 + n)) + Nat.b2n (fails (2 + n))
     + Nat.b2n (fails (3 + n)) + Nat.b2n (fails (4 + n))
     + Nat.b2n (fails (5 + n)) <= 2)%nat.

(** The sample of a register file that does not change. *)
Definition sample_of (regs : Z -> Z) : Sample :=
  sample_at (fun _ => regs) 0.

(** A bus that fails every third transaction. *)
Definition every_third (regs : Z -> Z) : World :=
  mkWorld (fun n _ reg =>
             if (n mod 3 =? 0)%nat then Raise OSError else Return (regs reg))
          0 [].

(** A bus whose registers count up with the transactions. *)
Definition counting : World :=
  mkWorld (fun n _ reg => Return ((Z.of_nat n + reg) mod 256)%Z) 0 [].

End Stream.

(** ** Bringing the sensor up

    [smbus2.SMBus(1)] and [write_byte_data] are two more operations on
    the bus.  Each is a transaction of the world: the oracle says
    whether it succeeds (the value it answers is ignored) or which
    exception it raises. *)

Module Init.

Import Smbus.

(** [smbus2.SMBus(bus_number)]: opening the device file; no device
    address takes part, [-1] stands in for it. *)
Definition open_bus (bus_number : Z) : IO unit :=
  fun w =>
    (match oracle w (transactions w) (-1)%Z bus_number with
     | Return _ => Return tt
     | Raise e => Raise e
     end,
     mkWorld (oracle w) (S (transactions w)) (slept w)).

Definition write_byte_data (addr reg value : Z) : IO unit :=
  fun w =>
    (match oracle w (transactions w) addr reg with
     | Return _ => Return tt
     | Raise e => Raise e
     end,
     mkWorld (oracle w) (S (transactions w)) (slept w)).

(** [try: m except Exception: h] (the clause for [BlockingIOError]
    before it has the same body): every exception but
    [KeyboardInterrupt], which is no [Exception], is handled. *)
Definition catch_Exception {A} (m : IO A) (h : IO A) : IO A :=
  fun w =>
    match m w with
    | (Raise OSError, w') => h w'
    | (Raise OtherException, w') => h w'
    | r => r
    end.

(** Wake-up and range configuration, as both scripts write them:
    power management, a pause, accelerometer and gyroscope range, a
    pause. *)
Definition wake_and_configure (address : Z) : IO unit :=
  (write_byte_data address 0x6B%Z 0x00%Z ;;;
   sleep 0.1 ;;;
   write_byte_data address 0x1C%Z 0x00%Z ;;;
   write_byte_data address 0x1B%Z 0x00%Z ;;;
   sleep 0.1)%io.

(** [mpu6050_tremor_detection.py], lines 12 and 45-53: at the top
    level, outside every [try]. *)
Definition resting_init : IO Z :=
  (open_bus 1 ;;;
   wake_and_configure Mpu6050.address ;;;
   ret Mpu6050.address)%io.

(** The body of the [try] of [init_mpu6050]. *)
Definition init_attempt : IO Z :=
  (open_bus 1 ;;;
   wake_and_configure 0x68%Z ;;;
   ret 0x68%Z)%io.

(** [init_mpu6050]: [for attempt in range(max_retries)], [todo]
    iterations left; a handled exception is followed by a sleep of one
    second, the last one too; after the loop a plain [Exception] is
    raised. *)
Fixpoint init_mpu6050_loop (todo : nat) : IO Z :=
  match todo with
  | O => raise OtherException
  | S todo' =>
      catch_Exception init_attempt
                      (sleep 1 ;;; init_mpu6050_loop todo')%io
  end.

(** The one call leaves [max_retries] at its default, 3. *)
Definition init_mpu6050 : IO Z := init_mpu6050_loop 3.

End Init.

(** ** The amplitude and smoothness metrics of [spiral.py] *)

Module Metrics.

(** The scan behind [np.max] and [np.min]. *)
Fixpoint max_from (best : Q) (l : list Q) : Q :=
  match l with
  | [] => best
  | x :: l' => max_from (if (best <? x)%num then x else best) l'
  end.

Fixpoint min_from (best : Q) (l : list Q) : Q :=
  match l with
  | [] => best
  | x :: l' => min_from (if (x <? best)%num then x else best) l'
  end.

(** [np.max], [np.min]: [ValueError] ([None]) on an empty array. *)
Definition amax (l : list Q) : option Q :=
  match l with
  | [] => None
  | x :: l' => Some (max_from x l')
  end.

Definition amin (l : list Q) : option Q :=
  match l with
  | [] => None
  | x :: l' => Some (min_from x l')
  end.

(** [np.diff]: the differences of neighbours. *)
Fixpoint diff (l : list Q) : list Q :=
  match l with
  | a :: (b :: _) as l' => (b - a) :: diff l'
  | _ => []
  end.

(** [np.mean]: of an empty array it is NaN, no number ([None]). *)
Definition mean (l : list Q) : option Q :=
  match l with
  | [] => None
  | _ :: _ => Some (Numpy.sum l / inject_Z (Z.of_nat (length l)))
  end.

(** [np.max(filtered) - np.min(filtered)] *)
Definition tremor_p2p (filtered : list Q) : option Q :=
  match amax filtered, amin filtered with
  | Some hi, Some lo => Some (hi - lo)
  | _, _ => None
  end.

(** [np.abs(np.diff(accel_magnitude)) * SAMPLE_RATE] *)
Definition jerk (accel_magnitude : list Q) : list Q :=
  map (fun d => Qabs d * inject_Z Common.SAMPLE_RATE) (diff accel_magnitude).

Definition smoothness_score (accel_magnitude : list Q) : option Q :=
  mean (jerk accel_magnitude).


End Metrics.

(** ** What [spiral.py] prints beside the status *)

Module Feedback.

Import Spiral.

(** ['HIGH' if x > significant else 'MODERATE' if x > mild else
    'normal'], the mark beside each diagnostic value. *)
Inductive Level : Type :=
| HIGH
| MODERATE
| normal.

Definition level (x significant mild : Q) : Level :=
  if (x >? significant)%num then HIGH
  else if (x >? mild)%num then MODERATE
  else normal.

Definition ratio_level (tremor_ratio : Q) : Level :=
  level tremor_ratio RATIO_SIGNIFICANT RATIO_MILD.

Definition rms_accel_level (tremor_rms_accel : Q) : Level :=
  level tremor_rms_accel RMS_ACCEL_SIGNIFICANT RMS_ACCEL_MILD.

Definition rms_gyro_level (tremor_rms_gyro : Q) : Level :=
  level tremor_rms_gyro RMS_GYRO_SIGNIFICANT RMS_GYRO_MILD.

(** The notes of the branch of "NO SIGNIFICANT TREMOR". *)
Inductive Note : Type :=
| PeakOutsideBand
| MinorComponent
| SomeMovement.

(** The three threshold tuning suggestions. *)
Inductive Suggestion : Type :=
| LowerThresholds
| RaiseThresholds
| WellCalibrated.

Definition is_no_significant_tremor (s : Status) : bool :=
  match s with
  | NO_SIGNIFICANT_TREMOR => true
  | _ => false
  end.

End Feedback.

(** ** Naming the result files

    Both scripts build the name of the plot and of the report from
    what the operator typed.  A string is a list of characters, here
    those with a code point below 256; [isspace] says which
    characters [str.strip] removes. *)

Module Naming.

Section Strip.

Variable isspace : ascii -> bool.

Fixpoint lstrip (s : list ascii) : list ascii :=
  match s with
  | [] => []
  | c :: s' => if isspace c then lstrip s' else s
  end.

Definition rstrip (s : list ascii) : list ascii := rev (lstrip (rev s)).

(** [input(...).strip()] *)
Definition strip (s : list ascii) : list ascii := rstrip (lstrip s).

End Strip.

(** [if not s: s = default] *)
Definition or_default (s default : list ascii) : list ascii :=
  match s with
  | [] => default
  | _ :: _ => s
  end.

(** [patient_name.replace(' ', '_')] *)
Definition replace_spaces (s : list ascii) : list ascii :=
  map (fun c => if Ascii.eqb c " "%char then "_"%char else c) s.

(** [f"{patient_name.replace(' ', '_')}_test{test_number}_{timestamp}"],
    with ["spiral"] for ["test"] in [spiral.py]. *)
Definition filename (label patient_name test_number timestamp : list ascii)
  : list ascii :=
  replace_spaces patient_name ++ ["_"%char] ++ label ++ test_number
  ++ ["_"%char] ++ timestamp.

Definition patient_name (isspace : ascii -> bool) (typed : list ascii)
  : list ascii :=
  or_default (strip isspace typed) (String.list_ascii_of_string "Unknown"%string).

Definition test_number (isspace : ascii -> bool) (typed : list ascii)
  : list ascii :=
  or_default (strip isspace typed) (String.list_ascii_of_string "1"%string).

Definition resting_filename (isspace : ascii -> bool)
           (typed_name typed_number timestamp : list ascii) : list ascii :=
  filename (String.list_ascii_of_string "test"%string) (patient_name isspace typed_name)
           (test_number isspace typed_number) timestamp.

Definition spiral_filename (isspace : ascii -> bool)
           (typed_name typed_number timestamp : list ascii) : list ascii :=
  filename (String.list_ascii_of_string "spiral"%string) (patient_name isspace typed_name)
           (test_number isspace typed_number) timestamp.

(** The characters below 256 that [str.strip] removes: 9 to 13,
    28 to 32, 0x85 and 0xA0. *)
Definition ascii_space (c : ascii) : bool :=
  let n := nat_of_ascii c in
  ((9 <=? n)%nat && (n <=? 13)%nat) || ((28 <=? n)%nat && (n <=? 32)%nat)
  || (n =? 133)%nat || (n =? 160)%nat.

End Naming.

(** ** Double precision

    Python's [float] and NumPy's [float64] are IEEE binary64, and so
    is Rocq's primitive [float]: its sum, product and quotient round
    to nearest, ties to even, and a comparison with a NaN is false.
    A literal of the source is the double nearest to it, here as
    there.  An [int] that meets a double ([/ 2], [4 <= f <= 6], the
    [0] of an empty spectrum) is converted without rounding, so it
    is written as the double of the same value. *)

Module Binary64.

(** [x > y] *)
Definition gtb (x y : float) : bool := (y <? x)%float.

(** Python's chained comparison [lo <= x <= hi]. *)
Definition between (lo x hi : float) : bool :=
  (lo <=? x)%float && (x <=? hi)%float.

(** The rational a finite double denotes: sign, mantissa and
    exponent, without rounding. *)
Definition value (x : float) : option Q :=
  match Prim2SF x with
  | S754_zero _ => Some 0
  | S754_finite s m e =>
      let v := inject_Z (Z.pos m) * 2 ^ e in
      Some (if s then - v else v)
  | S754_infinity _ | S754_nan => None
  end.

End Binary64.

(** ** The resting assessment in double precision

    Lines 183 to 201 of [mpu6050_tremor_detection.py] once more, on
    the doubles they compute with: the sum of the two ratios is
    rounded before it is halved and compared with 0.15. *)

Module Mpu6050_float64.

Import Binary64 Mpu6050.
Local Open Scope float_scope.

Definition combined_ratio (tremor_ratio_accel tremor_ratio_gyro : float)
  : float :=
  (tremor_ratio_accel + tremor_ratio_gyro) / 2.

Definition detected (tremor_ratio_accel tremor_ratio_gyro
                     peak_freq_accel peak_freq_gyro : float) : bool :=
  (gtb tremor_ratio_accel 0.3 || gtb tremor_ratio_gyro 0.3)
  && (between 4 peak_freq_accel 6 || between 4 peak_freq_gyro 6).

Definition tremor_status (tremor_ratio_accel tremor_ratio_gyro
                          peak_freq_accel peak_freq_gyro : float)
  : Status :=
  if detected tremor_ratio_accel tremor_ratio_gyro
              peak_freq_accel peak_freq_gyro
  then TREMOR_DETECTED
  else if gtb (combined_ratio tremor_ratio_accel tremor_ratio_gyro) 0.15
       then POSSIBLE_TREMOR
       else NO_TREMOR.

Definition tremor_type (tremor_ratio_accel tremor_ratio_gyro
                        peak_freq_accel peak_freq_gyro : float)
  : option TremorType :=
  if detected tremor_ratio_accel tremor_ratio_gyro
              peak_freq_accel peak_freq_gyro
  then Some (if gtb tremor_ratio_gyro tremor_ratio_accel
             then ROTATIONAL else LINEAR)
  else None.

End Mpu6050_float64.

(** ** The action assessment and its advice in double precision

    Lines 38 to 48 and 279 to 340 of [spiral.py] on the doubles they
    compute with.  The tuning suggestion compares with the products
    [RATIO_MILD*0.7] and [RMS_ACCEL_MILD*0.7], which are rounded. *)

Module Spiral_float64.

Import Binary64.
Local Open Scope float_scope.

Definition RATIO_SIGNIFICANT : float := 0.35.
Definition RATIO_MILD : float := 0.20.
Definition RMS_ACCEL_SIGNIFICANT : float := 0.50.
Definition RMS_ACCEL_MILD : float := 0.35.
Definition RMS_GYRO_SIGNIFICANT : float := 18.
Definition RMS_GYRO_MILD : float := 10.

Definition high_tremor_ratio (tremor_ratio_accel tremor_ratio_gyro : float)
  : bool :=
  gtb tremor_ratio_accel RATIO_SIGNIFICANT
  || gtb tremor_ratio_gyro RATIO_SIGNIFICANT.

Definition correct_frequency (peak_freq_accel peak_freq_gyro : float)
  : bool :=
  between 4 peak_freq_accel 6 || between 4 peak_freq_gyro 6.

Definition high_amplitude (tremor_rms_accel tremor_rms_gyro : float)
  : bool :=
  gtb tremor_rms_accel RMS_ACCEL_SIGNIFICANT
  || gtb tremor_rms_gyro RMS_GYRO_SIGNIFICANT.

Definition moderate_tremor_ratio
           (tremor_ratio_accel tremor_ratio_gyro : float) : bool :=
  gtb tremor_ratio_accel RATIO_MILD || gtb tremor_ratio_gyro RATIO_MILD.

Definition moderate_amplitude (tremor_rms_accel tremor_rms_gyro : float)
  : bool :=
  gtb tremor_rms_accel RMS_ACCEL_MILD || gtb tremor_rms_gyro RMS_GYRO_MILD.

Definition tremor_status
           (tremor_ratio_accel tremor_ratio_gyro
            tremor_rms_accel tremor_rms_gyro
            peak_freq_accel peak_freq_gyro : float) : Spiral.Status :=
  if correct_frequency peak_freq_accel peak_freq_gyro
     && (high_tremor_ratio tremor_ratio_accel tremor_ratio_gyro
         || high_amplitude tremor_rms_accel tremor_rms_gyro)
  then Spiral.SIGNIFICANT_ACTION_TREMOR
  else if correct_frequency peak_freq_accel peak_freq_gyro
          && (moderate_tremor_ratio tremor_ratio_accel tremor_ratio_gyro
              || moderate_amplitude tremor_rms_accel tremor_rms_gyro)
       then Spiral.MILD_ACTION_TREMOR
       else Spiral.NO_SIGNIFICANT_TREMOR.

(** The notes printed in the branch of "NO SIGNIFICANT TREMOR", and
    in no other. *)
Definition notes (tremor_ratio_accel tremor_ratio_gyro
                  tremor_rms_accel tremor_rms_gyro
                  peak_freq_accel peak_freq_gyro : float)
  : list Feedback.Note :=
  match tremor_status tremor_ratio_accel tremor_ratio_gyro
                      tremor_rms_accel tremor_rms_gyro
                      peak_freq_accel peak_freq_gyro with
  | Spiral.NO_SIGNIFICANT_TREMOR =>
      (if negb (correct_frequency peak_freq_accel peak_freq_gyro)
       then [Feedback.PeakOutsideBand]
       else if gtb tremor_ratio_accel 0.1 || gtb tremor_ratio_gyro 0.1
            then [Feedback.MinorComponent]
            else [])
      ++ (if gtb tremor_rms_accel 0.2 || gtb tremor_rms_gyro 5
          then [Feedback.SomeMovement]
          else [])
  | _ => []
  end.

(** The threshold tuning suggestion. *)
Definition suggestion (tremor_status : Spiral.Status)
           (tremor_ratio_accel tremor_rms_accel : float)
  : Feedback.Suggestion :=
  if Feedback.is_no_significant_tremor tremor_status
     && (gtb tremor_ratio_accel (RATIO_MILD * 0.7)
         || gtb tremor_rms_accel (RMS_ACCEL_MILD * 0.7))
  then Feedback.LowerThresholds
  else if negb (Feedback.is_no_significant_tremor tremor_status)
       then Feedback.RaiseThresholds
       else Feedback.WellCalibrated.

End Spiral_float64.

(* ================================================================== *)
(** * Properties *)
(* ================================================================== *)

Import Smbus Common.

(** ** Decoding a register pair *)

Lemma shiftl_8_word16 (high low : Z) :
  (Z.shiftl high 8 + low = Spec.word16 high low)%Z.
Proof.
  unfold Spec.word16. rewrite Z.shiftl_mul_pow2 by lia. reflexivity.
Qed.

Lemma word16_range (high low : Z) :
  (0 <= high <= 255 -> 0 <= low <= 255 ->
   0 <= Spec.word16 high low < 65536)%Z.
Proof. unfold Spec.word16. lia. Qed.

Lemma testbit_15_sign (w : Z) :
  (0 <= w < 65536)%Z -> Z.testbit w 15 = (w >=? 0x8000)%Z.
Proof.
  intros Hw.
  destruct (Z.geb_spec w 0x8000) as [Hge | Hlt].
  - apply Z.testbit_true; [lia |].
    assert (Hq : (w / 2 ^ 15 = 1)%Z).
    { symmetry. apply (Z.div_unique w (2 ^ 15) 1 (w - 2 ^ 15)); lia. }
    rewrite Hq. reflexivity.
  - apply Z.bits_above_log2; [lia |].
    destruct (Z.eq_dec w 0) as [-> | Hnz]; [reflexivity |].
    apply Z.log2_lt_pow2; lia.
Qed.

Lemma word_2c_spec (high low : Z) :
  (0 <= high <= 255)%Z -> (0 <= low <= 255)%Z ->
  word_2c high low = Spec.twos_complement16 (Spec.word16 high low).
Proof.
  intros Hh Hl. unfold word_2c, Spec.twos_complement16.
  rewrite shiftl_8_word16.
  rewrite (testbit_15_sign _ (word16_range _ _ Hh Hl)).
  destruct (Spec.word16 high low >=? 0x8000)%Z; lia.
Qed.

Lemma word_2c_range (high low : Z) :
  (0 <= high <= 255)%Z -> (0 <= low <= 255)%Z ->
  (-32768 <= word_2c high low <= 32767)%Z.
Proof.
  intros Hh Hl. unfold word_2c. rewrite shiftl_8_word16.
  pose proof (word16_range _ _ Hh Hl) as Hw.
  destruct (Z.geb_spec (Spec.word16 high low) 0x8000); lia.
Qed.

(** ** Reading a word from the bus *)

Lemma read_word_2c_answers (w : World) (addr reg high low : Z) :
  Scenario.answers w addr reg high low ->
  Mpu6050.read_word_2c addr reg w
  = (Return (word_2c high low),
     mkWorld (oracle w) (S (S (transactions w))) (slept w)).
Proof.
  intros [Hh Hl].
  unfold Mpu6050.read_word_2c, bind, read_byte_data, ret; simpl.
  rewrite Hh; simpl. rewrite Hl. reflexivity.
Qed.

Lemma read_word_2c_safe_answers (w : World) (addr reg high low : Z) :
  Scenario.answers w addr reg high low ->
  Spiral.read_word_2c_safe addr reg w
  = (Return (Some (word_2c high low)),
     mkWorld (oracle w) (S (S (transactions w))) (slept w)).
Proof.
  intros [Hh Hl].
  unfold Spiral.read_word_2c_safe, Spiral.read_word_2c_safe_with; simpl.
  unfold catch_OSError, bind, read_byte_data, ret; simpl.
  rewrite Hh; simpl. rewrite Hl. reflexivity.
Qed.

(** C10.  When the bus answers the bytes [high] and [low], both in
    [0, 255], the word reader of either script returns an integer of
    the closed interval [-32768, 32767], the two's-complement value of
    the 16-bit word [(high << 8) + low]. *)
Theorem raw_word_decoder_int16 (w : World) (addr reg high low : Z) :
  Scenario.answers w addr reg high low ->
  (0 <= high <= 255)%Z ->
  (0 <= low <= 255)%Z ->
  exists v : Z,
    fst (Mpu6050.read_word_2c addr reg w) = Return v
    /\ fst (Spiral.read_word_2c_safe addr reg w) = Return (Some v)
    /\ (-32768 <= v <= 32767)%Z
    /\ v = Spec.twos_complement16 (Z.shiftl high 8 + low).
Proof.
  intros Hans Hh Hl. exists (word_2c high low).
  rewrite (read_word_2c_answers _ _ _ _ _ Hans), (read_word_2c_safe_answers _ _ _ _ _ Hans).
  repeat split; try reflexivity; try (apply word_2c_range; assumption).
  rewrite shiftl_8_word16. apply word_2c_spec; assumption.
Qed.

Lemma raw_word_decoder_int16_witness :
  exists v : Z,
    fst (Mpu6050.read_word_2c 0x68 0x3B (Scenario.flaky 0 Scenario.sample_registers))
    = Return v
    /\ fst (Spiral.read_word_2c_safe 0x68 0x3B
              (Scenario.flaky 0 Scenario.sample_registers)) = Return (Some v)
    /\ (-32768 <= v <= 32767)%Z
    /\ v = Spec.twos_complement16 (Z.shiftl 0xFF 8 + 0x38).
Proof.
  apply (raw_word_decoder_int16 (Scenario.flaky 0 Scenario.sample_registers)
           0x68 0x3B 0xFF 0x38)%Z.
  - split; reflexivity.
  - lia.
  - lia.
Defined.

Example word_2c_minus_200 : word_2c 0xFF 0x38 = (-200)%Z.
Proof. reflexivity. Qed.

Example word_2c_extremes :
  word_2c 0x80 0x00 = (-32768)%Z /\ word_2c 0x7F 0xFF = 32767%Z
  /\ word_2c 0xFF 0xFF = (-1)%Z /\ word_2c 0 0 = 0%Z.
Proof. repeat split. Qed.

(** ** One sample on a bus without faults *)

Lemma bind_Return {A B} (m : IO A) (k : A -> IO B) (w w' : World) (a : A) :
  m w = (Return a, w') -> bind m k w = k a w'.
Proof. intros H. unfold bind. rewrite H. reflexivity. Qed.

Lemma bind_Raise {A B} (m : IO A) (k : A -> IO B) (w w' : World) (e : exn) :
  m w = (Raise e, w') -> bind m k w = (Raise e, w').
Proof. intros H. unfold bind. rewrite H. reflexivity. Qed.

Lemma steady_world (regs : Z -> Z) (w : World) (n : nat) (s : list Q) :
  Scenario.steady regs w -> Scenario.steady regs (mkWorld (oracle w) n s).
Proof. intros H k addr reg. apply H. Qed.

Lemma steady_answers (regs : Z -> Z) (w : World) (addr reg : Z) :
  Scenario.steady regs w ->
  Scenario.answers w addr reg (regs reg) (regs (reg + 1)%Z).
Proof. intros H. split; apply H. Qed.

Lemma read_word_steady (regs : Z -> Z) (w : World) (addr reg : Z) :
  Scenario.steady regs w ->
  Mpu6050.read_word addr reg w
  = (Return (Some (word_2c (regs reg) (regs (reg + 1)%Z))),
     mkWorld (oracle w) (S (S (transactions w))) (slept w)).
Proof.
  intros H. unfold Mpu6050.read_word.
  rewrite (bind_Return _ _ _ _ _
             (read_word_2c_answers _ _ _ _ _ (steady_answers _ _ addr reg H))).
  reflexivity.
Qed.

Lemma read_word_2c_safe_steady (regs : Z -> Z) (w : World) (addr reg : Z) :
  Scenario.steady regs w ->
  Spiral.read_word_2c_safe addr reg w
  = (Return (Some (word_2c (regs reg) (regs (reg + 1)%Z))),
     mkWorld (oracle w) (S (S (transactions w))) (slept w)).
Proof.
  intros H. apply read_word_2c_safe_answers, steady_answers, H.
Qed.

Lemma read_sample_steady (read_word : Z -> Z -> IO (option Z))
      (regs : Z -> Z) (w : World) (address : Z) :
  Scenario.reads_steadily read_word ->
  Scenario.steady regs w ->
  let raw reg := word_2c (regs reg) (regs (reg + 1)%Z) in
  read_sample read_word address w
  = (Return (mkSample (accel_units (raw 0x3B%Z)) (accel_units (raw 0x3D%Z))
                      (accel_units (raw 0x3F%Z))
                      (gyro_units (raw 0x43%Z)) (gyro_units (raw 0x45%Z))
                      (gyro_units (raw 0x47%Z))),
     mkWorld (oracle w) (12 + transactions w) (slept w)).
Proof.
  intros Hread Hsteady raw. unfold read_sample.
  repeat (erewrite bind_Return;
          [| apply Hread; repeat apply steady_world; exact Hsteady ]).
  reflexivity.
Qed.

(** C5.  On a bus without faults, whatever bytes the registers hold,
    each acceleration of the sample either script reads is
    [(r / 16384) * 9.81] and each angular rate is [r / 131], where [r]
    is the two's-complement value of the channel's 16-bit register
    word. *)
Theorem unit_conversion (regs : Z -> Z) (w : World) :
  Scenario.steady regs w ->
  (forall reg, 0 <= regs reg <= 255)%Z ->
  let r reg :=
    Spec.twos_complement16 (Spec.word16 (regs reg) (regs (reg + 1)%Z)) in
  let accel reg := (inject_Z (r reg) / 16384) * 9.81 in
  let gyro reg := inject_Z (r reg) / 131 in
  let expected :=
    mkSample (accel 0x3B%Z) (accel 0x3D%Z) (accel 0x3F%Z)
             (gyro 0x43%Z) (gyro 0x45%Z) (gyro 0x47%Z) in
  fst (read_sample Mpu6050.read_word Mpu6050.address w) = Return expected
  /\ fst (read_sample Spiral.read_word_2c_safe Spiral.address w)
     = Return expected.
Proof.
  intros Hsteady Hbytes r accel gyro expected.
  assert (Hr : forall reg, word_2c (regs reg) (regs (reg + 1)%Z) = r reg).
  { intros reg. apply word_2c_spec; apply Hbytes. }
  split.
  - rewrite (read_sample_steady Mpu6050.read_word regs w Mpu6050.address);
      [| intros ? ? ? ? ?; apply read_word_steady; assumption | assumption ].
    simpl fst. rewrite !Hr. reflexivity.
  - rewrite (read_sample_steady Spiral.read_word_2c_safe regs w
               Spiral.address);
      [| intros ? ? ? ? ?; apply read_word_2c_safe_steady; assumption
       | assumption ].
    simpl fst. rewrite !Hr. reflexivity.
Qed.

Lemma flaky_0_steady (regs : Z -> Z) : Scenario.steady regs (Scenario.flaky 0 regs).
Proof. intros n addr reg. reflexivity. Qed.

Lemma sample_registers_bytes (reg : Z) :
  (0 <= Scenario.sample_registers reg <= 255)%Z.
Proof.
  unfold Scenario.sample_registers.
  repeat match goal with
         | |- context [match ?x with _ => _ end] => destruct x
         end; lia.
Qed.

Lemma unit_conversion_witness :
  let accel r := (inject_Z r / 16384) * 9.81 in
  let gyro r := inject_Z r / 131 in
  let expected :=
    mkSample (accel (-200)%Z) (accel 16%Z) (accel 16384%Z)
             (gyro (-32768)%Z) (gyro 32767%Z) (gyro 131%Z) in
  fst (read_sample Mpu6050.read_word Mpu6050.address
         (Scenario.flaky 0 Scenario.sample_registers)) = Return expected
  /\ fst (read_sample Spiral.read_word_2c_safe Spiral.address
            (Scenario.flaky 0 Scenario.sample_registers)) = Return expected.
Proof.
  exact (unit_conversion Scenario.sample_registers
           (Scenario.flaky 0 Scenario.sample_registers)
           (flaky_0_steady Scenario.sample_registers)
           sample_registers_bytes).
Defined.

Example one_g_is_9_81 : accel_units 16384 == 9.81.
Proof. reflexivity. Qed.

Example gyro_131_is_1 : gyro_units 131 == 1.
Proof. reflexivity. Qed.

(** ** Boolean comparisons reflect the order of the rationals *)

Lemma leb_spec (x y : Q) : reflect (x <= y) (x <=? y)%num.
Proof.
  unfold Num.leb. destruct (Qle_bool x y) eqn:E; constructor.
  - apply Qle_bool_iff, E.
  - intros H. apply Qle_bool_iff in H. congruence.
Qed.

Lemma gtb_spec (x y : Q) : reflect (y < x) (x >? y)%num.
Proof.
  unfold Num.gtb, Num.ltb. destruct (Qle_bool x y) eqn:E; constructor.
  - apply Qle_bool_iff in E. apply Qle_not_lt, E.
  - apply Qnot_le_lt. intros H. apply Qle_bool_iff in H. congruence.
Qed.

Lemma ltb_spec (x y : Q) : reflect (x < y) (x <? y)%num.
Proof. exact (gtb_spec y x). Qed.

Lemma geb_spec (x y : Q) : reflect (y <= x) (x >=? y)%num.
Proof. exact (leb_spec y x). Qed.

Lemma between_spec (lo x hi : Q) :
  reflect (lo <= x /\ x <= hi) (Num.between lo x hi).
Proof.
  unfold Num.between.
  destruct (leb_spec lo x), (leb_spec x hi); constructor; tauto.
Qed.

(** Case analysis on every comparison of the goal. *)
Ltac compare_all :=
  repeat match goal with
         | |- context [Num.between ?lo ?x ?hi] =>
             destruct (between_spec lo x hi)
         | |- context [Num.gtb ?x ?y] => destruct (gtb_spec x y)
         | |- context [Num.ltb ?x ?y] => destruct (ltb_spec x y)
         | |- context [Num.leb ?x ?y] => destruct (leb_spec x y)
         | |- context [Num.geb ?x ?y] => destruct (geb_spec x y)
         end.

(** ** The resting-tremor classifier *)

(** C1.  On the doubles the script computes with: the status is
    TREMOR_DETECTED exactly when a ratio exceeds 0.3 and a peak
    frequency lies in [4, 6]; a detected tremor is ROTATIONAL exactly
    when the gyroscope ratio is strictly the greater and LINEAR
    otherwise; an undetected one has no type and is POSSIBLE_TREMOR
    exactly when the mean of the two ratios as the script computes it,
    the rounded sum halved, exceeds 0.15, NO_TREMOR otherwise. *)
Theorem resting_classification
        (ratio_accel ratio_gyro peak_freq_accel peak_freq_gyro : float) :
  let s := Mpu6050_float64.tremor_status ratio_accel ratio_gyro
                                         peak_freq_accel peak_freq_gyro in
  let t := Mpu6050_float64.tremor_type ratio_accel ratio_gyro
                                       peak_freq_accel peak_freq_gyro in
  (s = Mpu6050.TREMOR_DETECTED
   <-> ((0.3 <? ratio_accel)%float = true
        \/ (0.3 <? ratio_gyro)%float = true)
       /\ (((4 <=? peak_freq_accel)%float = true
            /\ (peak_freq_accel <=? 6)%float = true)
           \/ ((4 <=? peak_freq_gyro)%float = true
               /\ (peak_freq_gyro <=? 6)%float = true)))
  /\ (s = Mpu6050.TREMOR_DETECTED ->
      (t = Some Mpu6050.ROTATIONAL
       <-> (ratio_accel <? ratio_gyro)%float = true)
      /\ (t = Some Mpu6050.LINEAR
          <-> (ratio_accel <? ratio_gyro)%float = false))
  /\ (s <> Mpu6050.TREMOR_DETECTED ->
      t = None
      /\ (s = Mpu6050.POSSIBLE_TREMOR
          <-> (0.15 <? (ratio_accel + ratio_gyro) / 2)%float = true)
      /\ (s = Mpu6050.NO_TREMOR
          <-> (0.15 <? (ratio_accel + ratio_gyro) / 2)%float = false)).
Proof.
  intros s t. subst s t.
  unfold Mpu6050_float64.tremor_status, Mpu6050_float64.tremor_type,
    Mpu6050_float64.detected, Mpu6050_float64.combined_ratio,
    Binary64.gtb, Binary64.between.
  destruct (0.3 <? ratio_accel)%float, (0.3 <? ratio_gyro)%float,
    (4 <=? peak_freq_accel)%float, (peak_freq_accel <=? 6)%float,
    (4 <=? peak_freq_gyro)%float, (peak_freq_gyro <=? 6)%float,
    (ratio_accel <? ratio_gyro)%float,
    (0.15 <? (ratio_accel + ratio_gyro) / 2)%float;
    simpl; intuition (try discriminate; try congruence).
Qed.

(** The mean that is compared is not the mean of the two values.  The
    doubles 0.05 and 0.25 denote rationals whose mean is above 0.15,
    and no tremor is detected, yet the status is NO_TREMOR: their sum
    rounds down to the double 0.3, whose half is the double 0.15. *)
Lemma resting_mean_is_rounded :
  exists ratio_accel ratio_gyro peak_freq_accel peak_freq_gyro : float,
  exists a g : Q,
    Binary64.value ratio_accel = Some a
    /\ Binary64.value ratio_gyro = Some g
    /\ Mpu6050_float64.tremor_status ratio_accel ratio_gyro
                                     peak_freq_accel peak_freq_gyro
       <> Mpu6050.TREMOR_DETECTED
    /\ 0.15 < (a + g) / 2
    /\ Mpu6050_float64.tremor_status ratio_accel ratio_gyro
                                     peak_freq_accel peak_freq_gyro
       <> Mpu6050.POSSIBLE_TREMOR.
Proof.
  exists 0.05%float, 0.25%float, 5%float, 5%float.
  exists (7205759403792794 # 144115188075855872),
    (4503599627370496 # 18014398509481984).
  split; [vm_compute; reflexivity |].
  split; [vm_compute; reflexivity |].
  split; [vm_compute; discriminate |].
  split; [vm_compute; reflexivity |].
  vm_compute; discriminate.
Qed.

Example resting_scenario_linear :
  Mpu6050_float64.tremor_status 0.5 0 5 0 = Mpu6050.TREMOR_DETECTED
  /\ Mpu6050_float64.tremor_type 0.5 0 5 0 = Some Mpu6050.LINEAR.
Proof. split; reflexivity. Qed.

Example resting_equal_ratios_linear :
  Mpu6050_float64.tremor_type 0.4 0.4 5 5 = Some Mpu6050.LINEAR.
Proof. reflexivity. Qed.

Example resting_threshold_is_strict :
  Mpu6050_float64.tremor_status 0.3 0.3 5 5 = Mpu6050.POSSIBLE_TREMOR
  /\ Mpu6050_float64.tremor_status 0.15 0.15 5 5 = Mpu6050.NO_TREMOR.
Proof. split; reflexivity. Qed.

(** 0.1 + 0.2 is the double 0.30000000000000004: the status is
    POSSIBLE_TREMOR, where 0.05 + 0.25 gives NO_TREMOR. *)
Example resting_sum_is_rounded :
  (0.1 + 0.2 = 0.30000000000000004)%float
  /\ Mpu6050_float64.tremor_status 0.1 0.2 0 0 = Mpu6050.POSSIBLE_TREMOR
  /\ (0.05 + 0.25 = 0.3)%float
  /\ Mpu6050_float64.tremor_status 0.05 0.25 0 0 = Mpu6050.NO_TREMOR.
Proof. repeat split. Qed.

(** A ratio that is not a number exceeds no threshold. *)
Example resting_nan_is_no_tremor :
  Mpu6050_float64.tremor_status nan 0.2 5 5 = Mpu6050.NO_TREMOR.
Proof. reflexivity. Qed.

(** ** The action-tremor classifier *)

Lemma either_exceeds (x y tx ty : Q) :
  (x >? tx)%num || (y >? ty)%num = true <-> tx < x \/ ty < y.
Proof.
  destruct (gtb_spec x tx), (gtb_spec y ty); simpl;
    intuition discriminate.
Qed.

Lemma correct_frequency_iff (peak_freq_accel peak_freq_gyro : Q) :
  Spiral.correct_frequency peak_freq_accel peak_freq_gyro = true
  <-> (4 <= peak_freq_accel /\ peak_freq_accel <= 6)
      \/ (4 <= peak_freq_gyro /\ peak_freq_gyro <= 6).
Proof.
  unfold Spiral.correct_frequency.
  destruct (between_spec 4 peak_freq_accel 6),
    (between_spec 4 peak_freq_gyro 6); simpl; intuition discriminate.
Qed.

Lemma high_tremor_ratio_iff (ratio_accel ratio_gyro : Q) :
  Spiral.high_tremor_ratio ratio_accel ratio_gyro = true
  <-> 0.35 < ratio_accel \/ 0.35 < ratio_gyro.
Proof. apply either_exceeds. Qed.

Lemma high_amplitude_iff (rms_accel rms_gyro : Q) :
  Spiral.high_amplitude rms_accel rms_gyro = true
  <-> 0.50 < rms_accel \/ 18 < rms_gyro.
Proof. apply either_exceeds. Qed.

Lemma moderate_tremor_ratio_iff (ratio_accel ratio_gyro : Q) :
  Spiral.moderate_tremor_ratio ratio_accel ratio_gyro = true
  <-> 0.20 < ratio_accel \/ 0.20 < ratio_gyro.
Proof. apply either_exceeds. Qed.

Lemma moderate_amplitude_iff (rms_accel rms_gyro : Q) :
  Spiral.moderate_amplitude rms_accel rms_gyro = true
  <-> 0.35 < rms_accel \/ 10 < rms_gyro.
Proof. apply either_exceeds. Qed.

(** C2.  With [correct_frequency] the membership of a peak frequency in
    [4, 6]: the status is SIGNIFICANT_ACTION_TREMOR exactly when
    [correct_frequency] holds and a ratio exceeds 0.35 or an RMS its
    significant threshold (0.50 for the accelerometer, 18 for the
    gyroscope); otherwise it is MILD_ACTION_TREMOR exactly when
    [correct_frequency] holds and the same is true of the mild
    thresholds (0.20, 0.35, 10); otherwise NO_SIGNIFICANT_TREMOR. *)
Theorem action_classification
        (ratio_accel ratio_gyro rms_accel rms_gyro
         peak_freq_accel peak_freq_gyro : Q) :
  let s := Spiral.tremor_status ratio_accel ratio_gyro rms_accel rms_gyro
                                peak_freq_accel peak_freq_gyro in
  let correct_frequency :=
    (4 <= peak_freq_accel /\ peak_freq_accel <= 6)
    \/ (4 <= peak_freq_gyro /\ peak_freq_gyro <= 6) in
  let significant :=
    (0.35 < ratio_accel \/ 0.35 < ratio_gyro)
    \/ (0.50 < rms_accel \/ 18 < rms_gyro) in
  let mild :=
    (0.20 < ratio_accel \/ 0.20 < ratio_gyro)
    \/ (0.35 < rms_accel \/ 10 < rms_gyro) in
  (s = Spiral.SIGNIFICANT_ACTION_TREMOR <-> correct_frequency /\ significant)
  /\ (s <> Spiral.SIGNIFICANT_ACTION_TREMOR ->
      (s = Spiral.MILD_ACTION_TREMOR <-> correct_frequency /\ mild)
      /\ (s = Spiral.NO_SIGNIFICANT_TREMOR <-> ~ (correct_frequency /\ mild))).
Proof.
  intros s correct_frequency significant mild.
  subst s correct_frequency significant mild.
  rewrite <- correct_frequency_iff, <- high_tremor_ratio_iff,
    <- high_amplitude_iff, <- moderate_tremor_ratio_iff,
    <- moderate_amplitude_iff.
  unfold Spiral.tremor_status.
  destruct (Spiral.correct_frequency peak_freq_accel peak_freq_gyro),
    (Spiral.high_tremor_ratio ratio_accel ratio_gyro),
    (Spiral.high_amplitude rms_accel rms_gyro),
    (Spiral.moderate_tremor_ratio ratio_accel ratio_gyro),
    (Spiral.moderate_amplitude rms_accel rms_gyro); simpl;
    intuition (try discriminate; try congruence).
Qed.

Example action_scenario_none :
  Spiral.tremor_status 0.10 0.05 0.10 2 5 0 = Spiral.NO_SIGNIFICANT_TREMOR.
Proof. reflexivity. Qed.

Example action_scenario_significant :
  Spiral.tremor_status 0.40 0 0 0 0 5 = Spiral.SIGNIFICANT_ACTION_TREMOR.
Proof. reflexivity. Qed.

Example action_needs_frequency :
  Spiral.tremor_status 0.9 0.9 5 50 3 7 = Spiral.NO_SIGNIFICANT_TREMOR.
Proof. reflexivity. Qed.

Example action_amplitude_alone_is_mild :
  Spiral.tremor_status 0 0 0.4 0 5 0 = Spiral.MILD_ACTION_TREMOR.
Proof. reflexivity. Qed.

(** ** Monotonicity of the two classifiers *)








Example raising_ratio_promotes :
  Mpu6050.tremor_status 0.1 0.1 5 5 = Mpu6050.NO_TREMOR
  /\ Mpu6050.tremor_status 0.25 0.1 5 5 = Mpu6050.POSSIBLE_TREMOR
  /\ Mpu6050.tremor_status 0.35 0.1 5 5 = Mpu6050.TREMOR_DETECTED.
Proof. repeat split. Qed.

(** ** Sums of selected bins *)

Lemma fold_left_Qplus (l : list Q) (acc : Q) :
  fold_left Qplus l acc == acc + fold_left Qplus l 0.
Proof.
  revert acc. induction l as [| x l IH]; intros acc; simpl.
  - ring.
  - rewrite (IH (acc + x)), (IH (0 + x)). ring.
Qed.

Lemma sum_cons (x : Q) (l : list Q) : Numpy.sum (x :: l) == x + Numpy.sum l.
Proof.
  unfold Numpy.sum. simpl. rewrite fold_left_Qplus. ring.
Qed.

Lemma boolean_index_length {A} (arr : list A) (mask : list bool) :
  length arr = length mask -> exists sel, Numpy.boolean_index arr mask = Some sel.
Proof.
  revert mask. induction arr as [| a arr IH]; intros [| b mask] Hlen;
    simpl in *; try discriminate.
  - exists []. reflexivity.
  - destruct (IH mask) as [sel Hsel]; [lia |]. rewrite Hsel. eauto.
Qed.

Lemma boolean_index_mismatch {A} (arr : list A) (mask : list bool) :
  length arr <> length mask -> Numpy.boolean_index arr mask = None.
Proof.
  revert mask. induction arr as [| a arr IH]; intros [| b mask] Hlen;
    simpl in *; try reflexivity; try congruence.
  rewrite IH; [reflexivity | lia].
Qed.

(** Indexing by a mask computed from the frequencies keeps the bins
    the specification sums over. *)
Lemma sum_boolean_index (keep : Q -> bool) (freqs psd : list Q) :
  length freqs = length psd ->
  exists sel,
    Numpy.boolean_index psd (map keep freqs) = Some sel
    /\ Numpy.sum sel == Spec.power_where keep freqs psd.
Proof.
  revert psd. induction freqs as [| f freqs IH]; intros [| p psd] Hlen;
    simpl in *; try discriminate.
  - exists []. split; reflexivity.
  - destruct (IH psd) as [sel [Hsel Hsum]]; [lia |]. rewrite Hsel.
    destruct (keep f); eexists; split; try reflexivity.
    + rewrite sum_cons, Hsum. reflexivity.
    + rewrite Hsum. ring.
Qed.

Lemma power_where_nonneg (keep : Q -> bool) (freqs psd : list Q) :
  Forall (fun p => 0 <= p) psd -> 0 <= Spec.power_where keep freqs psd.
Proof.
  intros Hpos. revert freqs.
  induction Hpos as [| p psd Hp Hpsd IH]; intros [| f freqs]; simpl;
    try apply Qle_refl.
  specialize (IH freqs). destruct (keep f); lra.
Qed.

Lemma power_where_le (keep keep' : Q -> bool) (freqs psd : list Q) :
  (forall f, keep f = true -> keep' f = true) ->
  Forall (fun p => 0 <= p) psd ->
  Spec.power_where keep freqs psd <= Spec.power_where keep' freqs psd.
Proof.
  intros Himp Hpos. revert freqs.
  induction Hpos as [| p psd Hp Hpsd IH]; intros [| f freqs]; simpl;
    try apply Qle_refl.
  specialize (IH freqs). specialize (Himp f).
  destruct (keep f), (keep' f); try lra; discriminate (Himp eq_refl).
Qed.

Lemma power_where_agree (keep keep' : Q -> bool) (freqs psd : list Q) :
  Forall (fun f => keep f = keep' f) freqs ->
  Spec.power_where keep freqs psd = Spec.power_where keep' freqs psd.
Proof.
  intros Hagree. revert psd.
  induction Hagree as [| f freqs Hf Hfreqs IH]; intros [| p psd]; simpl;
    try reflexivity.
  rewrite Hf, IH. reflexivity.
Qed.

(** The masks of the code, as the bands of the specification. *)
Lemma tremor_band_power (freqs psd : list Q) :
  Spec.power_where (fun f => (f >=? 4)%num && (f <=? 6)%num) freqs psd
  = Spec.band_power 4 6 freqs psd.
Proof. reflexivity. Qed.

Lemma upto_15_band_power (freqs psd : list Q) :
  Forall (fun f => 0 <= f) freqs ->
  Spec.power_where (fun f => (f <=? 15)%num) freqs psd
  = Spec.band_power 0 15 freqs psd.
Proof.
  intros Hpos. apply power_where_agree.
  eapply Forall_impl; [| exact Hpos]. intros f Hf. simpl in Hf.
  apply Qle_bool_iff in Hf. rewrite Hf. reflexivity.
Qed.

Lemma band_4_6_le_upto_15 (freqs psd : list Q) :
  Forall (fun p => 0 <= p) psd ->
  Spec.band_power 4 6 freqs psd
  <= Spec.power_where (fun f => (f <=? 15)%num) freqs psd.
Proof.
  apply power_where_le. intros f Hf.
  apply andb_true_iff in Hf. destruct Hf as [_ Hf].
  apply Qle_bool_iff in Hf. apply Qle_bool_iff. lra.
Qed.

Lemma band_4_6_le_band_0_15 (freqs psd : list Q) :
  Forall (fun p => 0 <= p) psd ->
  Spec.band_power 4 6 freqs psd <= Spec.band_power 0 15 freqs psd.
Proof.
  apply power_where_le. intros f Hf.
  apply andb_true_iff in Hf. destruct Hf as [Hlo Hhi].
  apply Qle_bool_iff in Hlo, Hhi.
  apply andb_true_iff; split; apply Qle_bool_iff; lra.
Qed.

(** ** The tremor ratio *)

Lemma tremor_ratio_value (freqs psd : list Q) :
  length freqs = length psd ->
  exists tremor total,
    Spectral.tremor_ratio freqs psd
    = Some (if (total >? 0)%num then tremor / total else 0)
    /\ tremor == Spec.band_power 4 6 freqs psd
    /\ total == Spec.power_where (fun f => (f <=? 15)%num) freqs psd.
Proof.
  intros Hlen.
  destruct (sum_boolean_index (fun f => (f >=? 4)%num && (f <=? 6)%num)
              freqs psd Hlen) as [band [Hband Htremor]].
  destruct (sum_boolean_index (fun f => (f <=? 15)%num) freqs psd Hlen)
    as [upto [Hupto Htotal]].
  exists (Numpy.sum band), (Numpy.sum upto).
  unfold Spectral.tremor_ratio, Spectral.tremor_power, Spectral.total_power,
    Spectral.tremor_band.
  rewrite Hband, Hupto. simpl. repeat split; assumption.
Qed.

Lemma tremor_ratio_mismatch (freqs psd : list Q) :
  length freqs <> length psd -> Spectral.tremor_ratio freqs psd = None.
Proof.
  intros Hlen.
  unfold Spectral.tremor_ratio, Spectral.tremor_power, Spectral.tremor_band.
  rewrite boolean_index_mismatch; [reflexivity |].
  rewrite length_map. congruence.
Qed.

Lemma quotient_zero (x y : Q) : 0 < y -> (x / y == 0 <-> x == 0).
Proof.
  intros Hy. split; intros H.
  - assert (Hx : x == (x / y) * y) by (field; lra).
    rewrite Hx, H. ring.
  - rewrite H. field. lra.
Qed.

Lemma quotient_unit_interval (x y : Q) :
  0 <= x -> x <= y -> 0 < y -> 0 <= x / y /\ x / y <= 1.
Proof.
  intros Hx Hxy Hy. split.
  - apply Qle_shift_div_l; [assumption | lra].
  - apply Qle_shift_div_r; [assumption | lra].
Qed.

(** C6.  For a spectrum (one power value per frequency, neither
    negative), the tremor ratio is computed without an exception; it is
    the power in [4, 6] divided by the power in [0, 15] when the latter
    is not 0, and 0 when it is. *)
Theorem tremor_ratio_band_quotient (freqs psd : list Q) :
  length freqs = length psd ->
  Forall (fun f => 0 <= f) freqs ->
  Forall (fun p => 0 <= p) psd ->
  exists r,
    Spectral.tremor_ratio freqs psd = Some r
    /\ (Spec.band_power 0 15 freqs psd == 0 -> r == 0)
    /\ (~ Spec.band_power 0 15 freqs psd == 0 ->
        r == Spec.band_power 4 6 freqs psd / Spec.band_power 0 15 freqs psd).
Proof.
  intros Hlen Hfreqs Hpsd.
  destruct (tremor_ratio_value freqs psd Hlen)
    as [tremor [total [Hratio [Htremor Htotal]]]].
  rewrite (upto_15_band_power freqs psd Hfreqs) in Htotal.
  pose proof (power_where_nonneg
                (fun f => Qle_bool 0 f && Qle_bool f 15) freqs psd Hpsd)
    as Hnonneg.
  fold (Spec.band_power 0 15 freqs psd) in Hnonneg.
  eexists. split; [exact Hratio |].
  destruct (gtb_spec total 0) as [Hgt | Hle].
  - split.
    + intros Hzero. rewrite Hzero in Htotal. lra.
    + intros _. rewrite Htremor, Htotal. reflexivity.
  - split.
    + intros _. reflexivity.
    + intros Hnz. exfalso. apply Hnz. lra.
Qed.

Lemma tremor_ratio_band_quotient_witness :
  exists r,
    Spectral.tremor_ratio [0; 2; 4; 5; 6; 10; 20] [1; 2; 3; 4; 5; 9; 7]
    = Some r
    /\ (Spec.band_power 0 15 [0; 2; 4; 5; 6; 10; 20] [1; 2; 3; 4; 5; 9; 7]
        == 0 -> r == 0)
    /\ (~ Spec.band_power 0 15 [0; 2; 4; 5; 6; 10; 20] [1; 2; 3; 4; 5; 9; 7]
          == 0 ->
        r == Spec.band_power 4 6 [0; 2; 4; 5; 6; 10; 20] [1; 2; 3; 4; 5; 9; 7]
             / Spec.band_power 0 15 [0; 2; 4; 5; 6; 10; 20]
                               [1; 2; 3; 4; 5; 9; 7]).
Proof.
  apply (tremor_ratio_band_quotient [0; 2; 4; 5; 6; 10; 20]
           [1; 2; 3; 4; 5; 9; 7]).
  - reflexivity.
  - repeat constructor; discriminate.
  - repeat constructor; discriminate.
Defined.

Example tremor_ratio_half :
  option_map Qred
    (Spectral.tremor_ratio [0; 2; 4; 5; 6; 10; 20] [1; 2; 3; 4; 5; 9; 7])
  = Some (1 # 2).
Proof. reflexivity. Qed.

Example tremor_ratio_silent :
  Spectral.tremor_ratio [0; 5; 10] [0; 0; 0] = Some 0.
Proof. reflexivity. Qed.

(** C4, as the code has it.  For a spectrum without negative power the
    tremor ratio lies in [0, 1]; it is 0 whenever the power in
    [0, 15] is 0, and it is 0 exactly when the power in [4, 6] is 0. *)
Theorem tremor_ratio_bounds (freqs psd : list Q) :
  length freqs = length psd ->
  Forall (fun p => 0 <= p) psd ->
  exists r,
    Spectral.tremor_ratio freqs psd = Some r
    /\ 0 <= r /\ r <= 1
    /\ (Spec.band_power 0 15 freqs psd == 0 -> r == 0)
    /\ (r == 0 <-> Spec.band_power 4 6 freqs psd == 0).
Proof.
  intros Hlen Hpsd.
  destruct (tremor_ratio_value freqs psd Hlen)
    as [tremor [total [Hratio [Htremor Htotal]]]].
  pose proof (band_4_6_le_upto_15 freqs psd Hpsd) as Hsub.
  pose proof (band_4_6_le_band_0_15 freqs psd Hpsd) as Hsub'.
  pose proof (power_where_nonneg
                (fun f => Qle_bool 4 f && Qle_bool f 6) freqs psd Hpsd)
    as Hnonneg.
  fold (Spec.band_power 4 6 freqs psd) in Hnonneg.
  assert (Hzero : (if (total >? 0)%num then tremor / total else 0) == 0
                  <-> Spec.band_power 4 6 freqs psd == 0).
  { destruct (gtb_spec total 0) as [Hgt | Hle].
    - rewrite (quotient_zero tremor total Hgt), Htremor. reflexivity.
    - split; intros _; [lra | reflexivity]. }
  eexists. split; [exact Hratio |].
  repeat split.
  - destruct (gtb_spec total 0) as [Hgt | Hle]; [| apply Qle_refl].
    apply quotient_unit_interval; lra.
  - destruct (gtb_spec total 0) as [Hgt | Hle]; [| discriminate].
    apply quotient_unit_interval; lra.
  - intros H. apply Hzero. lra.
  - apply Hzero.
  - apply Hzero.
Qed.

Lemma tremor_ratio_bounds_witness :
  exists r,
    Spectral.tremor_ratio [0; 2; 4; 5; 6; 10; 20] [1; 2; 3; 4; 5; 9; 7]
    = Some r
    /\ 0 <= r /\ r <= 1
    /\ (Spec.band_power 0 15 [0; 2; 4; 5; 6; 10; 20] [1; 2; 3; 4; 5; 9; 7]
        == 0 -> r == 0)
    /\ (r == 0
        <-> Spec.band_power 4 6 [0; 2; 4; 5; 6; 10; 20] [1; 2; 3; 4; 5; 9; 7]
            == 0).
Proof.
  apply (tremor_ratio_bounds [0; 2; 4; 5; 6; 10; 20] [1; 2; 3; 4; 5; 9; 7]).
  - reflexivity.
  - repeat constructor; discriminate.
Defined.

(** C4 as stated fails: all the power of this spectrum sits at 10 Hz,
    so its tremor ratio is 0 while its power in [0, 15] is 1. *)
Lemma tremor_ratio_zero_with_power :
  length [0; 5; 10] = length [0; 0; 1]
  /\ Forall (fun p => 0 <= p) [0; 0; 1]
  /\ exists r,
      Spectral.tremor_ratio [0; 5; 10] [0; 0; 1] = Some r
      /\ ~ (r == 0 <-> Spec.band_power 0 15 [0; 5; 10] [0; 0; 1] == 0).
Proof.
  split; [reflexivity |].
  split; [repeat constructor; discriminate |].
  eexists. split; [reflexivity |].
  intros [H _]. specialize (H eq_refl). discriminate H.
Qed.

(** ** The peak frequency *)

Lemma argmax_from_first_maximum (l pre : list Q) (best_idx idx : nat)
      (best : Q) :
  idx = length pre ->
  nth_error pre best_idx = Some best ->
  (forall j y, nth_error pre j = Some y -> y <= best) ->
  (forall j y, (j < best_idx)%nat -> nth_error pre j = Some y -> y < best) ->
  Spec.first_maximum (pre ++ l) (Numpy.argmax_from best_idx best idx l).
Proof.
  revert pre best_idx idx best.
  induction l as [| x l IH]; intros pre best_idx idx best Hidx Hbest Hmax Hfirst.
  - simpl. rewrite app_nil_r. exists best. auto.
  - assert (Hlt : (best_idx < length pre)%nat).
    { apply nth_error_Some. congruence. }
    assert (Hlen : S idx = length (pre ++ [x])).
    { rewrite length_app. simpl. lia. }
    replace (pre ++ x :: l) with ((pre ++ [x]) ++ l)
      by (rewrite <- app_assoc; reflexivity).
    simpl. destruct (ltb_spec best x) as [Hnew | Hkeep];
      apply IH; try exact Hlen.
    + subst idx. rewrite nth_error_app2, Nat.sub_diag by lia. reflexivity.
    + intros j y Hj.
      destruct (Nat.lt_ge_cases j (length pre)) as [Hin | Hout].
      * rewrite nth_error_app1 in Hj by assumption.
        specialize (Hmax j y Hj). lra.
      * rewrite nth_error_app2 in Hj by assumption.
        destruct (j - length pre)%nat as [| k]; simpl in Hj.
        -- injection Hj as <-. apply Qle_refl.
        -- destruct k; discriminate.
    + intros j y Hj Hy. subst idx.
      rewrite nth_error_app1 in Hy by assumption.
      specialize (Hmax j y Hy). lra.
    + rewrite nth_error_app1 by assumption. exact Hbest.
    + intros j y Hj.
      destruct (Nat.lt_ge_cases j (length pre)) as [Hin | Hout].
      * rewrite nth_error_app1 in Hj by assumption. eauto.
      * rewrite nth_error_app2 in Hj by assumption.
        destruct (j - length pre)%nat as [| k]; simpl in Hj.
        -- injection Hj as <-. lra.
        -- destruct k; discriminate.
    + intros j y Hj Hy.
      rewrite nth_error_app1 in Hy by lia. eauto.
Qed.

Lemma argmax_first_maximum (l : list Q) :
  l <> [] -> exists i, Numpy.argmax l = Some i /\ Spec.first_maximum l i.
Proof.
  destruct l as [| x l]; [congruence |]. intros _.
  exists (Numpy.argmax_from 0 x 1 l). split; [reflexivity |].
  apply (argmax_from_first_maximum l [x] 0 1 x).
  - reflexivity.
  - reflexivity.
  - intros [| j] y Hj; simpl in Hj.
    + injection Hj as <-. apply Qle_refl.
    + destruct j; discriminate.
  - intros j y Hj. lia.
Qed.

Example argmax_first_of_ties : Numpy.argmax [1; 3; 2; 3; 0] = Some 1%nat.
Proof. reflexivity. Qed.

Example argmax_ties_up_to_equality :
  Numpy.argmax [1 # 2; 2 # 4; 1 # 3] = Some 0%nat.
Proof. reflexivity. Qed.

Example argmax_empty : Numpy.argmax [] = None.
Proof. reflexivity. Qed.

Lemma boolean_index_bins (keep : Q -> bool) (freqs psd : list Q) :
  length freqs = length psd ->
  let bins := filter (fun bin => keep (fst bin)) (combine freqs psd) in
  Numpy.boolean_index psd (map keep freqs) = Some (map snd bins)
  /\ Numpy.boolean_index freqs (map keep freqs) = Some (map fst bins).
Proof.
  revert psd. induction freqs as [| f freqs IH]; intros [| p psd] Hlen;
    simpl in *; try discriminate.
  - split; reflexivity.
  - destruct (IH psd) as [Hpsd Hfreqs]; [lia |].
    rewrite Hpsd, Hfreqs. destruct (keep f); split; reflexivity.
Qed.

Lemma bins_upto_nonempty (max_hz : Q) (freqs psd : list Q) :
  length freqs = length psd ->
  Exists (fun f => f <= max_hz) freqs ->
  Spec.bins_upto max_hz freqs psd <> [].
Proof.
  intros Hlen Hex. revert psd Hlen.
  induction Hex as [f freqs Hf | f freqs Hex IH]; intros psd Hlen;
    destruct psd as [| p psd]; simpl in *; try discriminate;
    unfold Spec.bins_upto; simpl.
  - apply Qle_bool_iff in Hf. rewrite Hf. discriminate.
  - destruct (Qle_bool f max_hz); [discriminate |].
    apply IH. lia.
Qed.

Lemma map_fst_combine (freqs psd : list Q) :
  length freqs = length psd -> map fst (combine freqs psd) = freqs.
Proof.
  revert psd. induction freqs as [| f freqs IH]; intros [| p psd] Hlen;
    simpl in *; try discriminate; try reflexivity.
  rewrite IH by lia. reflexivity.
Qed.

Lemma ascending_filter (keep : Q * Q -> bool) (bins : list (Q * Q)) :
  Spec.ascending (map fst bins) ->
  Spec.ascending (map fst (filter keep bins)).
Proof.
  induction bins as [| bin bins IH]; simpl; [trivial |].
  intros [Hall Hasc]. specialize (IH Hasc).
  destruct (keep bin); simpl; [| exact IH].
  split; [| exact IH].
  apply Forall_forall. intros f' Hin.
  apply in_map_iff in Hin. destruct Hin as [bin' [<- Hin]].
  apply filter_In in Hin. destruct Hin as [Hin _].
  rewrite Forall_forall in Hall. apply Hall.
  apply in_map. exact Hin.
Qed.

Lemma ascending_nth_error (l : list Q) (j k : nat) (a b : Q) :
  Spec.ascending l ->
  (j < k)%nat -> nth_error l j = Some a -> nth_error l k = Some b -> a < b.
Proof.
  revert j k. induction l as [| x l IH]; intros j k Hl Hjk Hj Hk.
  - destruct j; discriminate.
  - destruct Hl as [Hall Hasc].
    destruct k as [| k]; [lia |]. simpl in Hk.
    destruct j as [| j]; simpl in Hj.
    + injection Hj as <-. rewrite Forall_forall in Hall.
      apply Hall. eapply nth_error_In. exact Hk.
    + apply (IH j k); try assumption. lia.
Qed.

(** C7.  For a spectrum with a bin at or below 10 Hz, the peak
    frequency is computed without an exception and is the frequency of
    a bin of greatest power among those at or below 10 Hz, the first
    such bin in the order of the spectrum; when the frequencies ascend
    it is hence the lowest frequency of greatest power. *)
Theorem peak_frequency_first_maximum (freqs psd : list Q) :
  length freqs = length psd ->
  Exists (fun f => f <= 10) freqs ->
  let bins := Spec.bins_upto 10 freqs psd in
  exists (i : nat) (f p : Q),
    Spectral.peak_freq freqs psd = Some f
    /\ nth_error bins i = Some (f, p)
    /\ Spec.first_maximum (map snd bins) i
    /\ (Spec.ascending freqs ->
        forall f' p', In (f', p') bins -> p' == p -> f <= f').
Proof.
  intros Hlen Hex bins.
  pose proof (boolean_index_bins (fun f => (f <=? 10)%num) freqs psd Hlen)
    as Hboth.
  change (Numpy.boolean_index psd (map (fun f => (f <=? 10)%num) freqs)
          = Some (map snd bins)
          /\ Numpy.boolean_index freqs (map (fun f => (f <=? 10)%num) freqs)
             = Some (map fst bins)) in Hboth.
  destruct Hboth as [Hpsd Hfreqs].
  assert (Hne : map snd bins <> []).
  { pose proof (bins_upto_nonempty 10 freqs psd Hlen Hex) as Hne.
    fold bins in Hne. destruct bins; [congruence | discriminate]. }
  destruct (argmax_first_maximum (map snd bins) Hne) as [i [Harg Hmax]].
  destruct Hmax as [p [Hp [Hall Hfirst]]].
  rewrite nth_error_map in Hp.
  destruct (nth_error bins i) as [[f p0] |] eqn:Hbin; [| discriminate].
  simpl in Hp. injection Hp as ->.
  exists i, f, p.
  split; [| split; [exact Hbin | split]].
  - unfold Spectral.peak_freq. rewrite Hpsd, Harg, Hfreqs.
    rewrite nth_error_map, Hbin. reflexivity.
  - exists p. split; [| split; assumption].
    rewrite nth_error_map, Hbin. reflexivity.
  - intros Hasc f' p' Hin Htie.
    assert (Hbins : Spec.ascending (map fst bins)).
    { apply ascending_filter. rewrite map_fst_combine; assumption. }
    apply In_nth_error in Hin. destruct Hin as [k Hk].
    destruct (Nat.lt_trichotomy k i) as [Hlt | [-> | Hgt]].
    + exfalso. specialize (Hfirst k p' Hlt).
      rewrite nth_error_map, Hk in Hfirst. specialize (Hfirst eq_refl). lra.
    + rewrite Hbin in Hk. injection Hk as <- <-. apply Qle_refl.
    + apply Qlt_le_weak.
      apply (ascending_nth_error (map fst bins) i k); try assumption;
        rewrite nth_error_map; [rewrite Hbin | rewrite Hk]; reflexivity.
Qed.

Lemma peak_frequency_first_maximum_witness :
  let bins := Spec.bins_upto 10 [0; 2; 4; 5; 6; 10; 20] [1; 9; 3; 9; 5; 9; 70] in
  exists (i : nat) (f p : Q),
    Spectral.peak_freq [0; 2; 4; 5; 6; 10; 20] [1; 9; 3; 9; 5; 9; 70] = Some f
    /\ nth_error bins i = Some (f, p)
    /\ Spec.first_maximum (map snd bins) i
    /\ (Spec.ascending [0; 2; 4; 5; 6; 10; 20] ->
        forall f' p', In (f', p') bins -> p' == p -> f <= f').
Proof.
  apply (peak_frequency_first_maximum [0; 2; 4; 5; 6; 10; 20]
           [1; 9; 3; 9; 5; 9; 70]).
  - reflexivity.
  - constructor. discriminate.
Defined.

Example peak_freq_first_of_ties :
  Spectral.peak_freq [0; 2; 4; 5; 6; 10; 20] [1; 9; 3; 9; 5; 9; 70] = Some 2.
Proof. reflexivity. Qed.

Example peak_freq_no_bin_raises :
  Spectral.peak_freq [11; 12] [1; 2] = None.
Proof. reflexivity. Qed.

Example peak_freq_silent :
  Spectral.peak_freq [0; 0.5; 1] [0; 0; 0] = Some 0.
Proof. reflexivity. Qed.

(** ** Failed reads: retry and propagation *)

(** The statements the two readers make between [try] and [except]
    coincide with [read_word_2c] followed by a wrapping of its value. *)
Lemma safe_attempt_read_word (addr reg : Z) (w : World) :
  (high <- read_byte_data addr reg ;;
   low <- read_byte_data addr (reg + 1)%Z ;;
   ret (Some (word_2c high low)))%io w
  = Mpu6050.read_word addr reg w.
Proof.
  unfold Mpu6050.read_word, Mpu6050.read_word_2c, bind.
  destruct (read_byte_data addr reg w) as [[high | e] w1]; [| reflexivity].
  destruct (read_byte_data addr (reg + 1)%Z w1) as [[low | e] w2];
    reflexivity.
Qed.

(** The loop over [range(max_retries)], entered at [attempt] with
    [todo + 1] iterations left, is the retry policy with a budget of
    [todo] retries. *)
Lemma read_word_2c_safe_loop_retry (addr reg : Z) (max_retries todo : nat) :
  forall (attempt : nat) (w : World),
    (attempt + S todo = max_retries)%nat ->
    Spiral.read_word_2c_safe_loop addr reg max_retries (S todo) attempt w
    = Spec.retry todo 0.01 (Mpu6050.read_word addr reg) w.
Proof.
  induction todo as [| todo IH]; intros attempt w Hmax.
  - simpl. unfold catch_OSError. rewrite safe_attempt_read_word.
    destruct (Mpu6050.read_word addr reg w) as [[v | [ | | ]] w1];
      try reflexivity.
    replace (Z.of_nat attempt <? Z.of_nat max_retries - 1)%Z with false
      by (symmetry; apply Z.ltb_ge; lia).
    reflexivity.
  - cbn [Spiral.read_word_2c_safe_loop Spec.retry].
    unfold catch_OSError at 1. rewrite safe_attempt_read_word.
    destruct (Mpu6050.read_word addr reg w) as [[v | [ | | ]] w1];
      try reflexivity.
    replace (Z.of_nat attempt <? Z.of_nat max_retries - 1)%Z with true
      by (symmetry; apply Z.ltb_lt; lia).
    unfold bind at 1. cbn [sleep snd].
    apply IH. lia.
Qed.

Lemma read_word_2c_safe_with_retry (budget : nat) (addr reg : Z) (w : World) :
  Spiral.read_word_2c_safe_with (S budget) addr reg w
  = Spec.retry budget 0.01 (Mpu6050.read_word addr reg) w.
Proof.
  unfold Spiral.read_word_2c_safe_with.
  apply read_word_2c_safe_loop_retry. reflexivity.
Qed.

(** With no attempt to make, the wrapper returns [None]. *)
Lemma read_word_2c_safe_with_0 (addr reg : Z) (w : World) :
  Spiral.read_word_2c_safe_with 0 addr reg w = (Return None, w).
Proof. reflexivity. Qed.

(** A byte read that fails ends [read_word_2c] there and then. *)
Lemma read_word_2c_propagates (addr reg : Z) (w w' : World) (e : exn) :
  read_byte_data addr reg w = (Raise e, w') ->
  Mpu6050.read_word_2c addr reg w = (Raise e, w').
Proof.
  intros H. unfold Mpu6050.read_word_2c. apply bind_Raise. exact H.
Qed.

(** A sample whose reading raises ends the acquisition loop. *)
Lemma collect_propagates (read_word : Z -> Z -> IO (option Z))
      (address : Z) (window_size fuel : nat) (buf : list Sample)
      (w w' : World) (e : exn) :
  (length buf < window_size)%nat ->
  read_sample read_word address w = (Raise e, w') ->
  collect read_word address window_size (S fuel) buf w = (Raise e, w').
Proof.
  intros Hlen Hraise. simpl.
  apply Nat.ltb_lt in Hlen. rewrite Hlen.
  apply bind_Raise. exact Hraise.
Qed.

Lemma handle_Raise_not_Analysed {A} (e : exn) (a : A) :
  handle (Raise e) <> Analysed a.
Proof. destruct e; discriminate. Qed.

Lemma read_word_slept (addr reg : Z) (w : World) :
  slept (snd (Mpu6050.read_word addr reg w)) = slept w.
Proof.
  unfold Mpu6050.read_word, Mpu6050.read_word_2c, bind, read_byte_data, ret.
  simpl.
  destruct (oracle w (transactions w) addr reg); simpl; [| reflexivity].
  destruct (oracle w (S (transactions w)) addr (reg + 1)%Z); reflexivity.
Qed.

(** The retry policy sleeps its backoff once per retry, at most
    [budget] times, and [budget] times when it gives up. *)
Lemma retry_sleeps {A} (body : IO A) (backoff : Q) (budget : nat) :
  (forall w, slept (snd (body w)) = slept w) ->
  forall w,
  exists k,
    (k <= budget)%nat
    /\ slept (snd (Spec.retry budget backoff body w))
       = repeat backoff k ++ slept w
    /\ (fst (Spec.retry budget backoff body w) = Raise OSError -> k = budget).
Proof.
  intros Hbody. induction budget as [| budget IH]; intros w.
  - exists 0%nat. simpl. specialize (Hbody w).
    destruct (body w) as [[v | [ | | ]] w1]; simpl in *; auto.
  - simpl. pose proof (Hbody w) as Hw.
    destruct (body w) as [[v | [ | | ]] w1]; simpl in *;
      try (exists 0%nat; repeat split; [lia | assumption | discriminate]).
    destruct (IH (mkWorld (oracle w1) (transactions w1) (backoff :: slept w1)))
      as [k [Hk [Hslept Hgiveup]]].
    exists (S k). repeat split.
    + lia.
    + rewrite Hslept. simpl slept. rewrite Hw.
      change (backoff :: slept w) with ([backoff] ++ slept w).
      rewrite app_assoc, <- repeat_cons. reflexivity.
    + intros H. f_equal. apply Hgiveup. exact H.
Qed.

(** C3, as the code has it.  In [spiral.py] a register-pair read that
    fails with [OSError] is retried: at most three attempts are made,
    0.01 s is slept between two attempts, and the failure propagates
    only when the third attempt fails.  In [mpu6050_tremor_detection.py]
    a failed read is not retried: it propagates at once, after one
    transaction and no sleep.  In both, a sample whose reading raises
    ends the acquisition loop and the run has no analysis. *)
Theorem register_read_retry_policy (addr reg : Z) (w : World) :
  Spiral.read_word_2c_safe addr reg w
  = Spec.retry 2 0.01 (Mpu6050.read_word addr reg) w
  /\ (exists k,
         (k <= 2)%nat
         /\ slept (snd (Spiral.read_word_2c_safe addr reg w))
            = repeat 0.01 k ++ slept w
         /\ (fst (Spiral.read_word_2c_safe addr reg w) = Raise OSError ->
             k = 2%nat))
  /\ (forall e w',
         read_byte_data addr reg w = (Raise e, w') ->
         Mpu6050.read_word_2c addr reg w = (Raise e, w')
         /\ slept w' = slept w
         /\ transactions w' = S (transactions w))
  /\ (forall read_word address window_size fuel buf e w',
         (length buf < window_size)%nat ->
         read_sample read_word address w = (Raise e, w') ->
         forall window,
           handle (fst (collect read_word address window_size (S fuel) buf w))
           <> Analysed window).
Proof.
  assert (Hretry : Spiral.read_word_2c_safe addr reg w
                   = Spec.retry 2 0.01 (Mpu6050.read_word addr reg) w).
  { apply (read_word_2c_safe_with_retry 2). }
  split; [exact Hretry |]. split; [| split].
  - rewrite Hretry. apply retry_sleeps. apply read_word_slept.
  - intros e w' Hraise.
    split; [apply read_word_2c_propagates; exact Hraise |].
    unfold read_byte_data in Hraise. injection Hraise as _ <-.
    split; reflexivity.
  - intros read_word address window_size fuel buf e w' Hlen Hraise window.
    rewrite (collect_propagates _ _ _ _ _ _ _ _ Hlen Hraise).
    apply handle_Raise_not_Analysed.
Qed.

(** C3 as stated fails for the resting variant: when only the first
    transaction fails, [read_word_2c] raises after that transaction
    without a sleep and the run ends in an error, where the retry
    policy, and [read_word_2c_safe], return the register word. *)
Lemma resting_read_not_retried :
  Mpu6050.read_word_2c 0x68 0x3B (Scenario.flaky 1 Scenario.sample_registers)
  = (Raise OSError,
     mkWorld (oracle (Scenario.flaky 1 Scenario.sample_registers)) 1 [])
  /\ handle (fst (Mpu6050.acquire (Scenario.flaky 1 Scenario.sample_registers)))
     = Error OSError
  /\ fst (Spec.retry 2 0.01 (Mpu6050.read_word_2c 0x68 0x3B)
            (Scenario.flaky 1 Scenario.sample_registers)) = Return (-200)%Z
  /\ fst (Spiral.read_word_2c_safe 0x68 0x3B
            (Scenario.flaky 1 Scenario.sample_registers)) = Return (Some (-200)%Z).
Proof. repeat split. Qed.

Example safe_read_after_two_failures :
  Spiral.read_word_2c_safe 0x68 0x3B (Scenario.flaky 2 Scenario.sample_registers)
  = (Return (Some (-200)%Z),
     mkWorld (oracle (Scenario.flaky 2 Scenario.sample_registers)) 4 [0.01; 0.01]).
Proof. reflexivity. Qed.

Example safe_read_gives_up_after_three :
  Spiral.read_word_2c_safe 0x68 0x3B (Scenario.flaky 3 Scenario.sample_registers)
  = (Raise OSError,
     mkWorld (oracle (Scenario.flaky 3 Scenario.sample_registers)) 3 [0.01; 0.01])
  /\ handle (fst (Spiral.acquire (Scenario.flaky 3 Scenario.sample_registers)))
     = Error OSError.
Proof. split; reflexivity. Qed.

Example spiral_run_survives_two_failures :
  exists window,
    handle (fst (Spiral.acquire (Scenario.flaky 2 Scenario.sample_registers)))
    = Analysed (Some window)
    /\ length window = 1000%nat.
Proof.
  eexists. split; [vm_compute; reflexivity | reflexivity].
Qed.

(** ** The window is complete *)

Lemma deque_append_room {A} (maxlen : nat) (buf : list A) (x : A) :
  (length buf < maxlen)%nat -> deque_append maxlen buf x = buf ++ [x].
Proof.
  intros H. unfold deque_append. apply Nat.ltb_lt in H. rewrite H.
  reflexivity.
Qed.

(** With fuel for every missing sample the loop never runs dry: it
    raises, or it returns a window of exactly [window_size] samples
    that begins with the samples it started from. *)
Lemma collect_complete (read_word : Z -> Z -> IO (option Z)) (address : Z)
      (window_size : nat) :
  forall (fuel : nat) (buf : list Sample) (w : World),
    (length buf <= window_size)%nat ->
    (window_size - length buf <= fuel)%nat ->
    match fst (collect read_word address window_size fuel buf w) with
    | Return (Some window) =>
        length window = window_size
        /\ firstn (length buf) window = buf
    | Return None => False
    | Raise _ => True
    end.
Proof.
  induction fuel as [| fuel IH]; intros buf w Hle Hfuel.
  - simpl. destruct (Nat.ltb_spec (length buf) window_size); [lia |].
    simpl. split; [lia |]. apply firstn_all.
  - simpl. destruct (Nat.ltb_spec (length buf) window_size) as [Hlt | Hge].
    + unfold bind at 1.
      destruct (read_sample read_word address w) as [[s | e] w1];
        [| exact I].
      unfold bind at 1. cbn [sleep].
      rewrite (deque_append_room _ _ _ Hlt).
      match goal with
      | |- context [collect _ _ _ fuel (buf ++ [s]) ?w2] =>
          specialize (IH (buf ++ [s]) w2)
      end.
      rewrite length_app in IH. simpl in IH.
      specialize (IH ltac:(lia) ltac:(lia)).
      match goal with
      | |- context [collect ?a ?b ?c ?d ?e ?f] =>
          destruct (fst (collect a b c d e f)) as [[window |] | e']
      end; try exact IH.
      destruct IH as [Hlen Hprefix]. split; [exact Hlen |].
      assert (Hfirst : firstn (length buf) (firstn (length buf + 1) window)
                       = firstn (length buf) (buf ++ [s]))
        by (rewrite Hprefix; reflexivity).
      rewrite firstn_firstn, Nat.min_l in Hfirst by lia.
      rewrite Hfirst, firstn_app, Nat.sub_diag, firstn_all. simpl.
      apply app_nil_r.
    + simpl. split; [lia |]. apply firstn_all.
Qed.

(** Buffer completeness.  In either variant the acquisition raises or
    returns a window of exactly [WINDOW_SIZE] samples; retried reads
    add no sample and drop none. *)
Lemma acquire_complete (w : World) :
  match fst (Mpu6050.acquire w) with
  | Return (Some window) => length window = 400%nat
  | Return None => False
  | Raise _ => True
  end
  /\ match fst (Spiral.acquire w) with
     | Return (Some window) => length window = 1000%nat
     | Return None => False
     | Raise _ => True
     end.
Proof.
  split.
  - pose proof (collect_complete Mpu6050.read_word Mpu6050.address
                  (Z.to_nat Mpu6050.WINDOW_SIZE) (Z.to_nat Mpu6050.WINDOW_SIZE)
                  [] w (Nat.le_0_l _)) as H.
    specialize (H ltac:(simpl; lia)). unfold Mpu6050.acquire.
    destruct (fst (collect _ _ _ _ _ _)) as [[window |] | e]; try exact H.
    destruct H as [H _]. rewrite H. reflexivity.
  - pose proof (collect_complete Spiral.read_word_2c_safe Spiral.address
                  (Z.to_nat Spiral.WINDOW_SIZE) (Z.to_nat Spiral.WINDOW_SIZE)
                  [] w (Nat.le_0_l _)) as H.
    specialize (H ltac:(simpl; lia)). unfold Spiral.acquire.
    destruct (fst (collect _ _ _ _ _ _)) as [[window |] | e]; try exact H.
    destruct H as [H _]. rewrite H. reflexivity.
Qed.

(** ** The silent spectrum *)

Lemma argmax_from_stays (l : list Q) (best_idx idx : nat) (best : Q) :
  Forall (fun x => x <= best) l ->
  Numpy.argmax_from best_idx best idx l = best_idx.
Proof.
  intros Hall. revert idx.
  induction Hall as [| x l Hx Hl IH]; intros idx; simpl; [reflexivity |].
  destruct (ltb_spec best x) as [Hlt | _]; [lra | apply IH].
Qed.

Lemma power_where_silent (keep : Q -> bool) (freqs psd : list Q) :
  Forall (fun p => p == 0) psd -> Spec.power_where keep freqs psd == 0.
Proof.
  intros Hzero. revert freqs.
  induction Hzero as [| p psd Hp Hpsd IH]; intros [| f freqs]; simpl;
    try reflexivity.
  rewrite (IH freqs). destruct (keep f); lra.
Qed.

Lemma silent_bins (keep : Q * Q -> bool) (freqs psd : list Q) :
  Forall (fun p => p == 0) psd ->
  Forall (fun p => p <= 0) (map snd (filter keep (combine freqs psd))).
Proof.
  intros Hzero. apply Forall_forall. intros p Hin.
  apply in_map_iff in Hin. destruct Hin as [[f p'] [<- Hin]].
  apply filter_In in Hin. destruct Hin as [Hin _].
  apply in_combine_r in Hin. rewrite Forall_forall in Hzero.
  specialize (Hzero p' Hin). simpl. lra.
Qed.

(** A spectrum without power, its first bin at or below 10 Hz: the
    ratio is defined and is 0, the peak frequency is the first bin. *)
Lemma silent_spectrum (f0 : Q) (freqs psd : list Q) :
  f0 <= 10 ->
  length freqs = length psd ->
  Forall (fun p => p == 0) psd ->
  Spectral.peak_freq (f0 :: freqs) (0 :: psd) = Some f0
  /\ exists r, Spectral.tremor_ratio (f0 :: freqs) (0 :: psd) = Some r
               /\ r == 0.
Proof.
  intros Hf0 Hlen Hzero. split.
  - assert (Hlen' : length (f0 :: freqs) = length (0 :: psd))
      by (simpl; congruence).
    destruct (boolean_index_bins (fun f => (f <=? 10)%num)
                (f0 :: freqs) (0 :: psd) Hlen') as [Hpsd Hfreqs].
    unfold Spectral.peak_freq. rewrite Hpsd, Hfreqs.
    simpl. destruct (leb_spec f0 10) as [_ | Hno]; [| contradiction].
    simpl. rewrite argmax_from_stays; [reflexivity |].
    apply (silent_bins (fun bin => (fst bin <=? 10)%num)). exact Hzero.
  - assert (Hlen' : length (f0 :: freqs) = length (0 :: psd))
      by (simpl; congruence).
    destruct (tremor_ratio_value (f0 :: freqs) (0 :: psd) Hlen')
      as [tremor [total [Hratio [_ Htotal]]]].
    eexists. split; [exact Hratio |].
    rewrite power_where_silent in Htotal
      by (constructor; [reflexivity | exact Hzero]).
    destruct (gtb_spec total 0) as [Hgt | _]; [lra | reflexivity].
Qed.

Lemma resting_status_quiet (ra rg pa pg : Q) :
  ra == 0 -> rg == 0 ->
  Mpu6050.tremor_status ra rg pa pg = Mpu6050.NO_TREMOR.
Proof.
  intros Ha Hg.
  unfold Mpu6050.tremor_status, Mpu6050.detected, Mpu6050.combined_ratio.
  destruct (gtb_spec ra 0.3); [lra |].
  destruct (gtb_spec rg 0.3); [lra |].
  simpl.
  destruct (gtb_spec ((ra + rg) / 2) 0.15) as [H | _]; [| reflexivity].
  exfalso. apply Qlt_not_le in H. apply H.
  apply Qle_shift_div_r; lra.
Qed.

Lemma action_status_quiet (ra rg pa pg : Q) :
  ra == 0 -> rg == 0 ->
  Spiral.tremor_status ra rg 0 0 pa pg = Spiral.NO_SIGNIFICANT_TREMOR.
Proof.
  intros Ha Hg.
  unfold Spiral.tremor_status, Spiral.high_tremor_ratio,
    Spiral.high_amplitude, Spiral.moderate_tremor_ratio,
    Spiral.moderate_amplitude, Spiral.RATIO_SIGNIFICANT, Spiral.RATIO_MILD.
  destruct (gtb_spec ra 0.35); [lra |].
  destruct (gtb_spec rg 0.35); [lra |].
  destruct (gtb_spec ra 0.20); [lra |].
  destruct (gtb_spec rg 0.20); [lra |].
  simpl. rewrite !andb_false_r. reflexivity.
Qed.

(** Zero-signal edge case, from the spectra on.  When both Welch
    estimates hold no power and begin at a bin at or below 10 Hz, the
    assessment of either variant is produced, with both ratios 0, both
    peak frequencies the first bin, and the lowest status. *)
Lemma silent_assessment (f0 g0 : Q) (freqs_accel psd_accel freqs_gyro
                                     psd_gyro : list Q) :
  f0 <= 10 -> g0 <= 10 ->
  length freqs_accel = length psd_accel ->
  length freqs_gyro = length psd_gyro ->
  Forall (fun p => p == 0) psd_accel ->
  Forall (fun p => p == 0) psd_gyro ->
  (exists a,
      Mpu6050.assess (f0 :: freqs_accel) (0 :: psd_accel)
                     (g0 :: freqs_gyro) (0 :: psd_gyro) = Some a
      /\ Mpu6050.tremor_ratio_accel a == 0
      /\ Mpu6050.tremor_ratio_gyro a == 0
      /\ Mpu6050.peak_freq_accel a = f0
      /\ Mpu6050.peak_freq_gyro a = g0
      /\ Mpu6050.status a = Mpu6050.NO_TREMOR)
  /\ (exists a,
         Spiral.assess (f0 :: freqs_accel) (0 :: psd_accel)
                       (g0 :: freqs_gyro) (0 :: psd_gyro) 0 0 = Some a
         /\ Spiral.tremor_ratio_accel a == 0
         /\ Spiral.tremor_ratio_gyro a == 0
         /\ Spiral.peak_freq_accel a = f0
         /\ Spiral.peak_freq_gyro a = g0
         /\ Spiral.status a = Spiral.NO_SIGNIFICANT_TREMOR).
Proof.
  intros Hf0 Hg0 Hla Hlg Hza Hzg.
  destruct (silent_spectrum f0 freqs_accel psd_accel Hf0 Hla Hza)
    as [Hpa [ra [Hra Hra0]]].
  destruct (silent_spectrum g0 freqs_gyro psd_gyro Hg0 Hlg Hzg)
    as [Hpg [rg [Hrg Hrg0]]].
  split; eexists.
  - unfold Mpu6050.assess. rewrite Hra, Hrg, Hpa, Hpg.
    split; [reflexivity |]. simpl.
    repeat split; try assumption.
    apply resting_status_quiet; assumption.
  - unfold Spiral.assess. rewrite Hra, Hrg, Hpa, Hpg.
    split; [reflexivity |]. simpl.
    repeat split; try assumption.
    apply action_status_quiet; assumption.
Qed.

Lemma silent_assessment_witness :
  (exists a,
      Mpu6050.assess [0; 0.5; 1; 1.5] [0; 0; 0; 0] [0; 0.5; 1] [0; 0; 0]
      = Some a
      /\ Mpu6050.tremor_ratio_accel a == 0
      /\ Mpu6050.tremor_ratio_gyro a == 0
      /\ Mpu6050.peak_freq_accel a = 0
      /\ Mpu6050.peak_freq_gyro a = 0
      /\ Mpu6050.status a = Mpu6050.NO_TREMOR)
  /\ (exists a,
         Spiral.assess [0; 0.5; 1; 1.5] [0; 0; 0; 0] [0; 0.5; 1] [0; 0; 0] 0 0
         = Some a
         /\ Spiral.tremor_ratio_accel a == 0
         /\ Spiral.tremor_ratio_gyro a == 0
         /\ Spiral.peak_freq_accel a = 0
         /\ Spiral.peak_freq_gyro a = 0
         /\ Spiral.status a = Spiral.NO_SIGNIFICANT_TREMOR).
Proof.
  apply (silent_assessment 0 0 [0.5; 1; 1.5] [0; 0; 0] [0.5; 1] [0; 0]).
  - discriminate.
  - discriminate.
  - reflexivity.
  - reflexivity.
  - repeat constructor.
  - repeat constructor.
Defined.

(* ================================================================== *)
(** * Further properties of the acquisition *)
(* ================================================================== *)

(** ** Register pairs and signed words correspond one to one *)

(** Decoding loses nothing: two byte pairs that decode to the same
    integer are the same pair, and every integer of the signed 16-bit
    range is the value of a byte pair. *)
Theorem word_2c_bijection :
  (forall high low high' low' : Z,
      (0 <= high <= 255)%Z -> (0 <= low <= 255)%Z ->
      (0 <= high' <= 255)%Z -> (0 <= low' <= 255)%Z ->
      word_2c high low = word_2c high' low' ->
      high = high' /\ low = low')
  /\ (forall v : Z,
         (-32768 <= v <= 32767)%Z ->
         exists high low : Z,
           (0 <= high <= 255)%Z /\ (0 <= low <= 255)%Z
           /\ word_2c high low = v).
Proof.
  split.
  - intros high low high' low' Hh Hl Hh' Hl'. unfold word_2c.
    rewrite !shiftl_8_word16. unfold Spec.word16.
    destruct (Z.geb_spec (high * 256 + low) 0x8000),
      (Z.geb_spec (high' * 256 + low') 0x8000); lia.
  - intros v Hv.
    exists ((v mod 65536) / 256)%Z, ((v mod 65536) mod 256)%Z.
    assert (Hw : (0 <= v mod 65536 < 65536)%Z) by (apply Z.mod_pos_bound; lia).
    assert (Hlow : (0 <= (v mod 65536) mod 256 < 256)%Z)
      by (apply Z.mod_pos_bound; lia).
    assert (Hhigh : (0 <= (v mod 65536) / 256 < 256)%Z).
    { split; [apply Z.div_pos; lia | apply Z.div_lt_upper_bound; lia]. }
    repeat split; try lia.
    unfold word_2c. rewrite shiftl_8_word16. unfold Spec.word16.
    replace ((v mod 65536) / 256 * 256 + (v mod 65536) mod 256)%Z
      with (v mod 65536)%Z
      by (rewrite (Z.div_mod (v mod 65536) 256) at 1; lia).
    destruct (Z_lt_le_dec v 0) as [Hneg | Hpos].
    + assert (Hmod : (v mod 65536 = v + 65536)%Z).
      { symmetry. apply (Z.mod_unique v 65536 (-1)); lia. }
      rewrite Hmod. destruct (Z.geb_spec (v + 65536) 0x8000); lia.
    + rewrite Z.mod_small by lia.
      destruct (Z.geb_spec v 0x8000); lia.
Qed.

(** ** Converted values stay within the configured full scale *)

Lemma accel_units_range (raw : Z) :
  (-32768 <= raw <= 32767)%Z ->
  -(2 * 9.81) <= accel_units raw /\ accel_units raw < 2 * 9.81.
Proof.
  intros [Hlo Hhi]. unfold accel_units.
  assert (H1 : inject_Z (-32768) <= inject_Z raw)
    by (rewrite <- Zle_Qle; exact Hlo).
  assert (H2 : inject_Z raw <= inject_Z 32767)
    by (rewrite <- Zle_Qle; exact Hhi).
  assert (Hlo' : inject_Z (-32768) == -32768) by reflexivity.
  assert (Hhi' : inject_Z 32767 == 32767) by reflexivity.
  rewrite Hlo' in H1. rewrite Hhi' in H2.
  unfold Qdiv. setoid_replace (/ 16384) with (1 # 16384) by reflexivity.
  split; lra.
Qed.

Lemma gyro_units_range (raw : Z) :
  (-32768 <= raw <= 32767)%Z ->
  -250.14 < gyro_units raw /\ gyro_units raw < 250.14.
Proof.
  intros [Hlo Hhi]. unfold gyro_units.
  assert (H1 : inject_Z (-32768) <= inject_Z raw)
    by (rewrite <- Zle_Qle; exact Hlo).
  assert (H2 : inject_Z raw <= inject_Z 32767)
    by (rewrite <- Zle_Qle; exact Hhi).
  assert (Hlo' : inject_Z (-32768) == -32768) by reflexivity.
  assert (Hhi' : inject_Z 32767 == 32767) by reflexivity.
  rewrite Hlo' in H1. rewrite Hhi' in H2.
  unfold Qdiv. setoid_replace (/ 131) with (1 # 131) by reflexivity.
  split; lra.
Qed.

(** Whatever bytes the registers hold, the sample either script reads
    from a bus without faults lies within the configured ranges: each
    acceleration within +-2 g (19.62 m/s^2), each angular rate within
    +-250.14 deg/s. *)
Theorem sample_within_full_scale (regs : Z -> Z) (w : World) :
  Scenario.steady regs w ->
  (forall reg, 0 <= regs reg <= 255)%Z ->
  exists s : Sample,
    fst (read_sample Mpu6050.read_word Mpu6050.address w) = Return s
    /\ fst (read_sample Spiral.read_word_2c_safe Spiral.address w) = Return s
    /\ (-(2 * 9.81) <= ax s < 2 * 9.81)
    /\ (-(2 * 9.81) <= ay s < 2 * 9.81)
    /\ (-(2 * 9.81) <= az s < 2 * 9.81)
    /\ (-250.14 < gx s < 250.14)
    /\ (-250.14 < gy s < 250.14)
    /\ (-250.14 < gz s < 250.14).
Proof.
  intros Hsteady Hbytes.
  eexists. split; [| split].
  - rewrite (read_sample_steady Mpu6050.read_word regs w Mpu6050.address);
      [reflexivity | | assumption].
    intros ? ? ? ? ?; apply read_word_steady; assumption.
  - rewrite (read_sample_steady Spiral.read_word_2c_safe regs w
               Spiral.address); [reflexivity | | assumption].
    intros ? ? ? ? ?; apply read_word_2c_safe_steady; assumption.
  - simpl.
    repeat split;
      try (apply accel_units_range, word_2c_range; apply Hbytes);
      try (apply gyro_units_range, word_2c_range; apply Hbytes).
Qed.

Lemma sample_within_full_scale_witness :
  exists s : Sample,
    fst (read_sample Mpu6050.read_word Mpu6050.address
           (Scenario.flaky 0 Scenario.sample_registers)) = Return s
    /\ fst (read_sample Spiral.read_word_2c_safe Spiral.address
              (Scenario.flaky 0 Scenario.sample_registers)) = Return s
    /\ (-(2 * 9.81) <= ax s < 2 * 9.81)
    /\ (-(2 * 9.81) <= ay s < 2 * 9.81)
    /\ (-(2 * 9.81) <= az s < 2 * 9.81)
    /\ (-250.14 < gx s < 250.14)
    /\ (-250.14 < gy s < 250.14)
    /\ (-250.14 < gz s < 250.14).
Proof.
  exact (sample_within_full_scale Scenario.sample_registers
           (Scenario.flaky 0 Scenario.sample_registers)
           (flaky_0_steady Scenario.sample_registers)
           sample_registers_bytes).
Defined.

(** ** Samples are kept in acquisition order *)

Lemma streaming_world (data : nat -> Z -> Z) (w : World) (n : nat)
      (s : list Q) :
  Stream.streaming data w -> Stream.streaming data (mkWorld (oracle w) n s).
Proof. intros H k addr reg. apply H. Qed.

Lemma streaming_answers (data : nat -> Z -> Z) (w : World) (addr reg : Z) :
  Stream.streaming data w ->
  Scenario.answers w addr reg (data (transactions w) reg)
                   (data (S (transactions w)) (reg + 1)%Z).
Proof. intros H. split; apply H. Qed.

Lemma read_word_streaming (data : nat -> Z -> Z) (w : World) (addr reg : Z) :
  Stream.streaming data w ->
  Mpu6050.read_word addr reg w
  = (Return (Some (word_2c (data (transactions w) reg)
                           (data (S (transactions w)) (reg + 1)%Z))),
     mkWorld (oracle w) (S (S (transactions w))) (slept w)).
Proof.
  intros H. unfold Mpu6050.read_word.
  rewrite (bind_Return _ _ _ _ _
             (read_word_2c_answers _ _ _ _ _ (streaming_answers _ _ addr reg H))).
  reflexivity.
Qed.

Lemma read_word_2c_safe_streaming (data : nat -> Z -> Z) (w : World)
      (addr reg : Z) :
  Stream.streaming data w ->
  Spiral.read_word_2c_safe addr reg w
  = (Return (Some (word_2c (data (transactions w) reg)
                           (data (S (transactions w)) (reg + 1)%Z))),
     mkWorld (oracle w) (S (S (transactions w))) (slept w)).
Proof.
  intros H. apply read_word_2c_safe_answers, streaming_answers, H.
Qed.

Lemma read_sample_streaming (read_word : Z -> Z -> IO (option Z))
      (data : nat -> Z -> Z) (w : World) (address : Z) :
  (forall w' addr reg,
      Stream.streaming data w' ->
      read_word addr reg w'
      = (Return (Some (word_2c (data (transactions w') reg)
                               (data (S (transactions w')) (reg + 1)%Z))),
         mkWorld (oracle w') (S (S (transactions w'))) (slept w'))) ->
  Stream.streaming data w ->
  read_sample read_word address w
  = (Return (Stream.sample_at data (transactions w)),
     mkWorld (oracle w) (12 + transactions w) (slept w)).
Proof.
  intros Hread Hstream. unfold read_sample.
  repeat (erewrite bind_Return;
          [| apply Hread; repeat apply streaming_world; exact Hstream ]).
  reflexivity.
Qed.

Lemma window_from_S (data : nat -> Z -> Z) (t n : nat) :
  Stream.window_from data t (S n)
  = Stream.sample_at data t :: Stream.window_from data (12 + t) n.
Proof.
  unfold Stream.window_from. cbn [seq map].
  replace (t + 12 * 0)%nat with t by lia. f_equal.
  rewrite <- seq_shift, map_map. apply map_ext. intros i.
  f_equal. lia.
Qed.

Lemma repeat_app_cons {A} (x : A) (n : nat) (l : list A) :
  repeat x n ++ x :: l = x :: repeat x n ++ l.
Proof.
  induction n as [| n IH]; simpl; [reflexivity |]. rewrite IH. reflexivity.
Qed.

Lemma collect_streaming (read_word : Z -> Z -> IO (option Z))
      (data : nat -> Z -> Z) (address : Z) (window_size : nat) :
  (forall w' addr reg,
      Stream.streaming data w' ->
      read_word addr reg w'
      = (Return (Some (word_2c (data (transactions w') reg)
                               (data (S (transactions w')) (reg + 1)%Z))),
         mkWorld (oracle w') (S (S (transactions w'))) (slept w'))) ->
  forall (fuel : nat) (buf : list Sample) (w : World),
    Stream.streaming data w ->
    (length buf + fuel = window_size)%nat ->
    collect read_word address window_size fuel buf w
    = (Return (Some (buf ++ Stream.window_from data (transactions w) fuel)),
       mkWorld (oracle w) (transactions w + 12 * fuel)
               (repeat (1 / inject_Z SAMPLE_RATE) fuel ++ slept w)).
Proof.
  intros Hread.
  induction fuel as [| fuel IH]; intros buf w Hstream Hlen.
  - simpl. destruct (Nat.ltb_spec (length buf) window_size); [lia |].
    unfold ret. destruct w as [o t s]. simpl.
    rewrite app_nil_r, Nat.add_0_r. reflexivity.
  - cbn [collect].
    destruct (Nat.ltb_spec (length buf) window_size) as [Hlt | Hge]; [| lia].
    rewrite (bind_Return _ _ _ _ _
               (read_sample_streaming read_word data w address Hread Hstream)).
    unfold bind at 1. cbn [sleep].
    rewrite (deque_append_room _ _ _ Hlt).
    rewrite IH.
    + cbn [oracle transactions slept].
      rewrite window_from_S, <- app_assoc, repeat_app_cons.
      simpl app. do 2 f_equal. lia.
    + apply streaming_world. exact Hstream.
    + rewrite length_app. simpl. lia.
Qed.

Lemma sum_repeat (d : Q) (n : nat) :
  Numpy.sum (repeat d n) == inject_Z (Z.of_nat n) * d.
Proof.
  induction n as [| n IH].
  - reflexivity.
  - cbn [repeat]. rewrite sum_cons, IH, Nat2Z.inj_succ.
    unfold Z.succ. rewrite inject_Z_plus. ring.
Qed.

(** On a bus without faults whose registers change between reads, the
    window either script acquires holds, in order, the samples of the
    successive groups of twelve transactions; nothing is dropped or
    reordered.  The acquisition makes twelve transactions per sample
    and sleeps 1/SAMPLE_RATE once per sample, WINDOW_SECONDS in all. *)
Theorem acquisition_in_order (data : nat -> Z -> Z) (w : World) :
  Stream.streaming data w ->
  let pause := 1 / inject_Z SAMPLE_RATE in
  let n4 := Z.to_nat Mpu6050.WINDOW_SIZE in
  let n10 := Z.to_nat Spiral.WINDOW_SIZE in
  Mpu6050.acquire w
  = (Return (Some (Stream.window_from data (transactions w) n4)),
     mkWorld (oracle w) (transactions w + 12 * n4)
             (repeat pause n4 ++ slept w))
  /\ Spiral.acquire w
     = (Return (Some (Stream.window_from data (transactions w) n10)),
        mkWorld (oracle w) (transactions w + 12 * n10)
                (repeat pause n10 ++ slept w))
  /\ Numpy.sum (repeat pause n4) == inject_Z Mpu6050.WINDOW_SECONDS
  /\ Numpy.sum (repeat pause n10) == inject_Z Spiral.WINDOW_SECONDS.
Proof.
  intros Hstream pause n4 n10. split; [| split; [| split]].
  - unfold Mpu6050.acquire.
    rewrite (collect_streaming Mpu6050.read_word data Mpu6050.address n4);
      [reflexivity | | assumption | reflexivity].
    intros; apply read_word_streaming; assumption.
  - unfold Spiral.acquire.
    rewrite (collect_streaming Spiral.read_word_2c_safe data Spiral.address
               n10); [reflexivity | | assumption | reflexivity].
    intros; apply read_word_2c_safe_streaming; assumption.
  - rewrite sum_repeat. reflexivity.
  - rewrite sum_repeat. reflexivity.
Qed.

Lemma counting_streams :
  Stream.streaming (fun n reg => ((Z.of_nat n + reg) mod 256)%Z)
                   Stream.counting.
Proof. intros n addr reg. reflexivity. Qed.

Lemma acquisition_in_order_witness :
  let data := fun (n : nat) (reg : Z) => ((Z.of_nat n + reg) mod 256)%Z in
  let w := Stream.counting in
  let pause := 1 / inject_Z SAMPLE_RATE in
  let n4 := Z.to_nat Mpu6050.WINDOW_SIZE in
  let n10 := Z.to_nat Spiral.WINDOW_SIZE in
  Mpu6050.acquire w
  = (Return (Some (Stream.window_from data (transactions w) n4)),
     mkWorld (oracle w) (transactions w + 12 * n4)
             (repeat pause n4 ++ slept w))
  /\ Spiral.acquire w
     = (Return (Some (Stream.window_from data (transactions w) n10)),
        mkWorld (oracle w) (transactions w + 12 * n10)
                (repeat pause n10 ++ slept w))
  /\ Numpy.sum (repeat pause n4) == inject_Z Mpu6050.WINDOW_SECONDS
  /\ Numpy.sum (repeat pause n10) == inject_Z Spiral.WINDOW_SECONDS.
Proof.
  exact (acquisition_in_order
           (fun n reg => ((Z.of_nat n + reg) mod 256)%Z)
           Stream.counting counting_streams).
Defined.

(** ** Sparse faults are invisible behind the retry *)

Lemma faulty_world (fails : nat -> bool) (regs : Z -> Z) (w w' : World) :
  oracle w' = oracle w ->
  Stream.faulty fails regs w -> Stream.faulty fails regs w'.
Proof. intros Ho H n addr reg. rewrite Ho. apply H. Qed.

(** One attempt on a faulty bus: it stops at the first byte read that
    fails. *)
Lemma read_word_faulty (fails : nat -> bool) (regs : Z -> Z) (w : World)
      (addr reg : Z) :
  Stream.faulty fails regs w ->
  Mpu6050.read_word addr reg w
  = if fails (transactions w)
    then (Raise OSError,
          mkWorld (oracle w) (S (transactions w)) (slept w))
    else if fails (S (transactions w))
         then (Raise OSError,
               mkWorld (oracle w) (S (S (transactions w))) (slept w))
         else (Return (Some (word_2c (regs reg) (regs (reg + 1)%Z))),
               mkWorld (oracle w) (S (S (transactions w))) (slept w)).
Proof.
  intros Hf.
  unfold Mpu6050.read_word, Mpu6050.read_word_2c, bind, read_byte_data, ret.
  cbn [oracle transactions slept]. rewrite !Hf.
  destruct (fails (transactions w)); [reflexivity |].
  destruct (fails (S (transactions w))); reflexivity.
Qed.

(** With at most two faults in any six consecutive transactions, one
    of the three attempts of [read_word_2c_safe] gets both bytes. *)
Lemma read_word_2c_safe_sparse (fails : nat -> bool) (regs : Z -> Z)
      (w : World) (addr reg : Z) :
  Stream.faulty fails regs w ->
  Stream.sparse fails ->
  exists w',
    Spiral.read_word_2c_safe addr reg w
    = (Return (Some (word_2c (regs reg) (regs (reg + 1)%Z))), w')
    /\ oracle w' = oracle w.
Proof.
  intros Hf Hs. specialize (Hs (transactions w)). cbn [Nat.add] in Hs.
  unfold Spiral.read_word_2c_safe.
  rewrite (read_word_2c_safe_with_retry 2). cbn [Spec.retry].
  repeat (match goal with
          | |- context [Mpu6050.read_word ?a ?r ?w'] =>
              rewrite (read_word_faulty fails regs w' a r)
                by (apply (faulty_world fails regs w w' eq_refl Hf));
              cbn [oracle transactions slept]
          end;
          repeat match goal with
                 | |- context [if fails ?n then _ else _] =>
                     let E := fresh "E" in
                     destruct (fails n) eqn:E; try rewrite E in Hs
                 end;
          cbn [sleep snd oracle transactions slept]);
    try (exfalso; cbn [Nat.b2n] in Hs; lia);
    eexists; split; reflexivity.
Qed.

Lemma read_sample_sparse (fails : nat -> bool) (regs : Z -> Z) (w : World)
      (address : Z) :
  Stream.faulty fails regs w ->
  Stream.sparse fails ->
  exists w',
    read_sample Spiral.read_word_2c_safe address w
    = (Return (Stream.sample_of regs), w')
    /\ oracle w' = oracle w.
Proof.
  intros Hf Hs. unfold read_sample.
  destruct (read_word_2c_safe_sparse fails regs w address 0x3B Hf Hs)
    as [w1 [E1 O1]].
  pose proof (faulty_world fails regs w w1 O1 Hf) as Hf1.
  destruct (read_word_2c_safe_sparse fails regs w1 address 0x3D Hf1 Hs)
    as [w2 [E2 O2]].
  pose proof (faulty_world fails regs w1 w2 O2 Hf1) as Hf2.
  destruct (read_word_2c_safe_sparse fails regs w2 address 0x3F Hf2 Hs)
    as [w3 [E3 O3]].
  pose proof (faulty_world fails regs w2 w3 O3 Hf2) as Hf3.
  destruct (read_word_2c_safe_sparse fails regs w3 address 0x43 Hf3 Hs)
    as [w4 [E4 O4]].
  pose proof (faulty_world fails regs w3 w4 O4 Hf3) as Hf4.
  destruct (read_word_2c_safe_sparse fails regs w4 address 0x45 Hf4 Hs)
    as [w5 [E5 O5]].
  pose proof (faulty_world fails regs w4 w5 O5 Hf4) as Hf5.
  destruct (read_word_2c_safe_sparse fails regs w5 address 0x47 Hf5 Hs)
    as [w6 [E6 O6]].
  exists w6. split; [| congruence].
  rewrite (bind_Return _ _ _ _ _ E1), (bind_Return _ _ _ _ _ E2),
    (bind_Return _ _ _ _ _ E3), (bind_Return _ _ _ _ _ E4),
    (bind_Return _ _ _ _ _ E5), (bind_Return _ _ _ _ _ E6).
  reflexivity.
Qed.

Lemma collect_sparse (fails : nat -> bool) (regs : Z -> Z) (address : Z)
      (window_size : nat) :
  Stream.sparse fails ->
  forall (fuel : nat) (buf : list Sample) (w : World),
    Stream.faulty fails regs w ->
    (length buf + fuel = window_size)%nat ->
    fst (collect Spiral.read_word_2c_safe address window_size fuel buf w)
    = Return (Some (buf ++ repeat (Stream.sample_of regs) fuel)).
Proof.
  intros Hs. induction fuel as [| fuel IH]; intros buf w Hf Hlen.
  - simpl. destruct (Nat.ltb_spec (length buf) window_size); [lia |].
    simpl. rewrite app_nil_r. reflexivity.
  - cbn [collect].
    destruct (Nat.ltb_spec (length buf) window_size) as [Hlt | Hge]; [| lia].
    destruct (read_sample_sparse fails regs w address Hf Hs) as [w1 [E1 O1]].
    rewrite (bind_Return _ _ _ _ _ E1).
    unfold bind at 1. cbn [sleep].
    rewrite (deque_append_room _ _ _ Hlt).
    rewrite IH.
    + rewrite <- app_assoc. reflexivity.
    + eapply faulty_world; [| exact Hf]. simpl. exact O1.
    + rewrite length_app. simpl. lia.
Qed.

Lemma window_from_steady (regs : Z -> Z) (t n : nat) :
  Stream.window_from (fun _ => regs) t n = repeat (Stream.sample_of regs) n.
Proof.
  unfold Stream.window_from.
  rewrite (map_ext _ (fun _ => Stream.sample_of regs))
    by (intros i; reflexivity).
  rewrite map_const, length_seq. reflexivity.
Qed.

(** Retried reads leave no trace in the data.  When at most two of any
    six consecutive bus transactions fail, the acquisition of
    [spiral.py] completes, and its window is the one a bus without
    faults holding the same registers yields. *)
Theorem sparse_faults_invisible (fails : nat -> bool) (regs : Z -> Z)
        (w w0 : World) :
  Stream.faulty fails regs w ->
  Stream.sparse fails ->
  Scenario.steady regs w0 ->
  fst (Spiral.acquire w)
  = Return (Some (repeat (Stream.sample_of regs)
                         (Z.to_nat Spiral.WINDOW_SIZE)))
  /\ fst (Spiral.acquire w) = fst (Spiral.acquire w0).
Proof.
  intros Hf Hs Hsteady.
  assert (Hw : fst (Spiral.acquire w)
               = Return (Some (repeat (Stream.sample_of regs)
                                      (Z.to_nat Spiral.WINDOW_SIZE)))).
  { unfold Spiral.acquire.
    rewrite (collect_sparse fails regs Spiral.address
               (Z.to_nat Spiral.WINDOW_SIZE) Hs); [reflexivity | exact Hf |].
    reflexivity. }
  split; [exact Hw |]. rewrite Hw.
  unfold Spiral.acquire.
  rewrite (collect_streaming Spiral.read_word_2c_safe (fun _ => regs)
             Spiral.address (Z.to_nat Spiral.WINDOW_SIZE)).
  - cbn [fst app]. rewrite window_from_steady. reflexivity.
  - intros w' addr reg Hw'.
    exact (read_word_2c_safe_streaming (fun _ => regs) w' addr reg Hw').
  - exact Hsteady.
  - reflexivity.
Qed.

Lemma every_third_faulty (regs : Z -> Z) :
  Stream.faulty (fun n => (n mod 3 =? 0)%nat) regs (Stream.every_third regs).
Proof. intros n addr reg. reflexivity. Qed.

Lemma every_third_sparse : Stream.sparse (fun n => (n mod 3 =? 0)%nat).
Proof.
  intros n.
  assert (H : forall k, ((k + n) mod 3 = (k + n mod 3) mod 3)%nat).
  { intros k. rewrite Nat.Div0.add_mod_idemp_r. reflexivity. }
  change (1 + n)%nat with (1 + n)%nat.
  rewrite (H 1%nat), (H 2%nat), (H 3%nat), (H 4%nat), (H 5%nat).
  pose proof (Nat.mod_upper_bound n 3 ltac:(lia)) as Hb.
  destruct (n mod 3)%nat as [| [| [| m]]]; [| | | lia]; simpl; lia.
Qed.

Lemma sparse_faults_invisible_witness :
  fst (Spiral.acquire (Stream.every_third Scenario.sample_registers))
  = Return (Some (repeat (Stream.sample_of Scenario.sample_registers)
                         (Z.to_nat Spiral.WINDOW_SIZE)))
  /\ fst (Spiral.acquire (Stream.every_third Scenario.sample_registers))
     = fst (Spiral.acquire (Scenario.flaky 0 Scenario.sample_registers)).
Proof.
  exact (sparse_faults_invisible (fun n => (n mod 3 =? 0)%nat)
           Scenario.sample_registers
           (Stream.every_third Scenario.sample_registers)
           (Scenario.flaky 0 Scenario.sample_registers)
           (every_third_faulty Scenario.sample_registers)
           every_third_sparse
           (flaky_0_steady Scenario.sample_registers)).
Defined.

(** ** Without a retry, one fault ends the run *)

Lemma fault_among (fails : nat -> bool) (t n : nat) :
  (forall k, (k < n)%nat -> fails (k + t)%nat = false)
  \/ (exists k, (k < n)%nat /\ fails (k + t)%nat = true).
Proof.
  induction n as [| n [IH | [k [Hk Hfail]]]].
  - left. intros k Hk. lia.
  - destruct (fails (n + t)%nat) eqn:E.
    + right. exists n. split; [lia | exact E].
    + left. intros k Hk.
      destruct (Nat.eq_dec k n) as [-> | Hne]; [exact E | apply IH; lia].
  - right. exists k. split; [lia | exact Hfail].
Qed.

Lemma read_sample_fault_free (fails : nat -> bool) (regs : Z -> Z)
      (w : World) (address : Z) :
  Stream.faulty fails regs w ->
  (forall k, (k < 12)%nat -> fails (k + transactions w)%nat = false) ->
  read_sample Mpu6050.read_word address w
  = (Return (Stream.sample_of regs),
     mkWorld (oracle w) (12 + transactions w) (slept w)).
Proof.
  intros Hf Hok.
  assert (F : forall k, (k < 12)%nat ->
                        fails (k + transactions w)%nat = false) by exact Hok.
  pose proof (F 0%nat ltac:(lia)) as F0. pose proof (F 1%nat ltac:(lia)) as F1.
  pose proof (F 2%nat ltac:(lia)) as F2. pose proof (F 3%nat ltac:(lia)) as F3.
  pose proof (F 4%nat ltac:(lia)) as F4. pose proof (F 5%nat ltac:(lia)) as F5.
  pose proof (F 6%nat ltac:(lia)) as F6. pose proof (F 7%nat ltac:(lia)) as F7.
  pose proof (F 8%nat ltac:(lia)) as F8. pose proof (F 9%nat ltac:(lia)) as F9.
  pose proof (F 10%nat ltac:(lia)) as F10.
  pose proof (F 11%nat ltac:(lia)) as F11.
  cbn [Nat.add] in F0, F1, F2, F3, F4, F5, F6, F7, F8, F9, F10, F11.
  unfold read_sample.
  repeat (erewrite bind_Return;
          [| erewrite read_word_faulty
               by (eapply faulty_world; [| exact Hf]; reflexivity);
             cbn [transactions oracle slept];
             rewrite ?F0, ?F1, ?F2, ?F3, ?F4, ?F5, ?F6, ?F7, ?F8, ?F9,
               ?F10, ?F11; reflexivity ]).
  reflexivity.
Qed.

Lemma read_sample_fault (fails : nat -> bool) (regs : Z -> Z)
      (w : World) (address : Z) :
  Stream.faulty fails regs w ->
  (exists k, (k < 12)%nat /\ fails (k + transactions w)%nat = true) ->
  exists w', read_sample Mpu6050.read_word address w = (Raise OSError, w').
Proof.
  intros Hf [k [Hk Hfail]]. unfold read_sample.
  do 6 (unfold bind at 1;
        erewrite read_word_faulty
          by (eapply faulty_world; [| exact Hf]; reflexivity);
        cbn [transactions oracle slept];
        do 2 (match goal with
              | |- context [if fails ?n then _ else _] =>
                  destruct (fails n) eqn:?; [eexists; reflexivity |]
              end)).
  exfalso.
  do 12 (destruct k as [| k]; [cbn [Nat.add] in Hfail; congruence |]).
  lia.
Qed.

Lemma collect_faulty (fails : nat -> bool) (regs : Z -> Z) (address : Z)
      (window_size : nat) :
  forall (fuel : nat) (buf : list Sample) (w : World),
    Stream.faulty fails regs w ->
    (length buf + fuel = window_size)%nat ->
    ((forall k, (k < 12 * fuel)%nat ->
                fails (k + transactions w)%nat = false) ->
     fst (collect Mpu6050.read_word address window_size fuel buf w)
     = Return (Some (buf ++ repeat (Stream.sample_of regs) fuel)))
    /\ ((exists k, (k < 12 * fuel)%nat
                   /\ fails (k + transactions w)%nat = true) ->
        fst (collect Mpu6050.read_word address window_size fuel buf w)
        = Raise OSError).
Proof.
  induction fuel as [| fuel IH]; intros buf w Hf Hlen.
  - split.
    + intros _. simpl.
      destruct (Nat.ltb_spec (length buf) window_size); [lia |].
      simpl. rewrite app_nil_r. reflexivity.
    + intros [k [Hk _]]. lia.
  - assert (Hlt : (length buf < window_size)%nat) by lia.
    destruct (fault_among fails (transactions w) 12) as [Hok | Hbad].
    + pose proof (read_sample_fault_free fails regs w address Hf Hok) as E.
      assert (Hstep :
                collect Mpu6050.read_word address window_size (S fuel) buf w
                = collect Mpu6050.read_word address window_size fuel
                    (buf ++ [Stream.sample_of regs])
                    (mkWorld (oracle w) (12 + transactions w)
                             (1 / inject_Z SAMPLE_RATE :: slept w))).
      { cbn [collect].
        destruct (Nat.ltb_spec (length buf) window_size); [| lia].
        rewrite (bind_Return _ _ _ _ _ E). unfold bind at 1. cbn [sleep].
        rewrite (deque_append_room _ _ _ Hlt). reflexivity. }
      rewrite Hstep.
      destruct (IH (buf ++ [Stream.sample_of regs])
                  (mkWorld (oracle w) (12 + transactions w)
                           (1 / inject_Z SAMPLE_RATE :: slept w)))
        as [IHok IHbad].
      * eapply faulty_world; [| exact Hf]. reflexivity.
      * rewrite length_app. simpl. lia.
      * cbn [transactions] in IHok, IHbad. split.
        -- intros Hall. rewrite IHok.
           ++ rewrite <- app_assoc. reflexivity.
           ++ intros k Hk.
              replace (k + (12 + transactions w))%nat
                with ((k + 12) + transactions w)%nat by lia.
              apply Hall. lia.
        -- intros [k [Hk Hfail]]. apply IHbad.
           destruct (Nat.lt_ge_cases k 12) as [Hlow | Hhigh].
           ++ rewrite (Hok k Hlow) in Hfail. discriminate.
           ++ exists (k - 12)%nat. split; [lia |].
              replace (k - 12 + (12 + transactions w))%nat
                with (k + transactions w)%nat by lia.
              exact Hfail.
    + destruct (read_sample_fault fails regs w address Hf Hbad) as [w' E].
      rewrite (collect_propagates _ _ _ _ _ _ _ _ Hlt E). split.
      * intros Hall. destruct Hbad as [k [Hk Hfail]].
        rewrite Hall in Hfail by lia. discriminate.
      * intros _. reflexivity.
Qed.

(** The acquisition of [mpu6050_tremor_detection.py] completes exactly
    when none of its 12 x WINDOW_SIZE bus transactions fails; a single
    failing transaction ends the run in an error. *)
Theorem resting_acquisition_needs_fault_free_bus
        (fails : nat -> bool) (regs : Z -> Z) (w : World) :
  Stream.faulty fails regs w ->
  let n := Z.to_nat Mpu6050.WINDOW_SIZE in
  (fst (Mpu6050.acquire w) = Return (Some (repeat (Stream.sample_of regs) n))
   <-> forall k, (k < 12 * n)%nat -> fails (k + transactions w)%nat = false)
  /\ ((exists k, (k < 12 * n)%nat /\ fails (k + transactions w)%nat = true)
      -> handle (fst (Mpu6050.acquire w)) = Error OSError).
Proof.
  intros Hf n.
  destruct (collect_faulty fails regs Mpu6050.address n n [] w Hf eq_refl)
    as [Hok Hbad].
  change (collect Mpu6050.read_word Mpu6050.address n n [] w)
    with (Mpu6050.acquire w) in Hok, Hbad.
  cbn [app] in Hok. split; [split |].
  - intros Hret.
    destruct (fault_among fails (transactions w) (12 * n)) as [Hall | Hex];
      [exact Hall |].
    rewrite (Hbad Hex) in Hret. discriminate.
  - exact Hok.
  - intros Hex. rewrite (Hbad Hex). reflexivity.
Qed.

Lemma flaky_faulty (k : nat) (regs : Z -> Z) :
  Stream.faulty (fun n => (n <? k)%nat) regs (Scenario.flaky k regs).
Proof. intros n addr reg. reflexivity. Qed.

Lemma resting_acquisition_needs_fault_free_bus_witness :
  let fails := fun n => (n <? 1)%nat in
  let w := Scenario.flaky 1 Scenario.sample_registers in
  let n := Z.to_nat Mpu6050.WINDOW_SIZE in
  (fst (Mpu6050.acquire w)
   = Return (Some (repeat (Stream.sample_of Scenario.sample_registers) n))
   <-> forall k, (k < 12 * n)%nat -> fails (k + transactions w)%nat = false)
  /\ ((exists k, (k < 12 * n)%nat /\ fails (k + transactions w)%nat = true)
      -> handle (fst (Mpu6050.acquire w)) = Error OSError).
Proof.
  exact (resting_acquisition_needs_fault_free_bus (fun n => (n <? 1)%nat)
           Scenario.sample_registers
           (Scenario.flaky 1 Scenario.sample_registers)
           (flaky_faulty 1 Scenario.sample_registers)).
Defined.

(* ================================================================== *)
(** * Further properties of the analysis *)
(* ================================================================== *)

(** ** When the analysis raises *)

Lemma tremor_ratio_None_iff (freqs psd : list Q) :
  Spectral.tremor_ratio freqs psd = None <-> length freqs <> length psd.
Proof.
  split.
  - intros Hnone Hlen.
    destruct (tremor_ratio_value freqs psd Hlen) as [t [u [H _]]].
    congruence.
  - apply tremor_ratio_mismatch.
Qed.

Lemma no_bin_or_some_bin (freqs : list Q) :
  Forall (fun f => 10 < f) freqs \/ Exists (fun f => f <= 10) freqs.
Proof.
  induction freqs as [| f freqs [IH | IH]].
  - left. constructor.
  - destruct (Qlt_le_dec 10 f) as [Hgt | Hle].
    + left. constructor; assumption.
    + right. constructor. exact Hle.
  - right. apply Exists_cons_tl. exact IH.
Qed.

Lemma boolean_index_none_kept {A} (keep : Q -> bool) (freqs : list Q)
      (arr : list A) :
  length freqs = length arr ->
  Forall (fun f => keep f = false) freqs ->
  Numpy.boolean_index arr (map keep freqs) = Some [].
Proof.
  intros Hlen Hall. revert arr Hlen.
  induction Hall as [| f freqs Hf Hfreqs IH]; intros [| a arr] Hlen;
    simpl in *; try discriminate; [reflexivity |].
  rewrite IH by lia. rewrite Hf. reflexivity.
Qed.

Lemma peak_freq_defined (freqs psd : list Q) :
  length freqs = length psd ->
  Exists (fun f => f <= 10) freqs ->
  exists f, Spectral.peak_freq freqs psd = Some f /\ In f freqs /\ f <= 10.
Proof.
  intros Hlen Hex.
  pose proof (boolean_index_bins (fun f => (f <=? 10)%num) freqs psd Hlen)
    as Hboth.
  set (bins := Spec.bins_upto 10 freqs psd).
  change (Numpy.boolean_index psd (map (fun f => (f <=? 10)%num) freqs)
          = Some (map snd bins)
          /\ Numpy.boolean_index freqs (map (fun f => (f <=? 10)%num) freqs)
             = Some (map fst bins)) in Hboth.
  destruct Hboth as [Hpsd Hfreqs].
  assert (Hne : map snd bins <> []).
  { pose proof (bins_upto_nonempty 10 freqs psd Hlen Hex) as Hne.
    fold bins in Hne. destruct bins; [congruence | discriminate]. }
  destruct (argmax_first_maximum (map snd bins) Hne) as [i [Harg Hmax]].
  destruct Hmax as [p [Hp _]].
  rewrite nth_error_map in Hp.
  destruct (nth_error bins i) as [[f p0] |] eqn:Hbin; [| discriminate].
  exists f. split; [| split].
  - unfold Spectral.peak_freq. rewrite Hpsd, Harg, Hfreqs.
    rewrite nth_error_map, Hbin. reflexivity.
  - apply nth_error_In in Hbin. apply filter_In in Hbin.
    destruct Hbin as [Hin _]. apply in_combine_l in Hin. exact Hin.
  - apply nth_error_In in Hbin. apply filter_In in Hbin.
    destruct Hbin as [_ Hle]. apply Qle_bool_iff in Hle. exact Hle.
Qed.

Lemma peak_freq_None_iff (freqs psd : list Q) :
  Spectral.peak_freq freqs psd = None
  <-> length freqs <> length psd \/ Forall (fun f => 10 < f) freqs.
Proof.
  split.
  - intros Hnone.
    destruct (Nat.eq_dec (length freqs) (length psd)) as [Hlen | Hlen];
      [| left; exact Hlen].
    destruct (no_bin_or_some_bin freqs) as [Hall | Hex]; [right; exact Hall |].
    destruct (peak_freq_defined freqs psd Hlen Hex) as [f [Hf _]].
    congruence.
  - intros [Hlen | Hall].
    + unfold Spectral.peak_freq.
      rewrite boolean_index_mismatch; [reflexivity |].
      rewrite length_map. congruence.
    + destruct (Nat.eq_dec (length freqs) (length psd)) as [Hlen | Hlen].
      * unfold Spectral.peak_freq.
        rewrite (boolean_index_none_kept (fun f => (f <=? 10)%num) freqs psd
                   Hlen); [reflexivity |].
        eapply Forall_impl; [| exact Hall]. intros f Hf. simpl in Hf.
        destruct (leb_spec f 10); [lra | reflexivity].
      * unfold Spectral.peak_freq.
        rewrite boolean_index_mismatch; [reflexivity |].
        rewrite length_map. congruence.
Qed.

(** From [x = None <-> P] to [P] or its negation, by the shape of [x]. *)
Ltac settle_option H :=
  match type of H with
  | Some _ = None <-> ?P =>
      let n := fresh "Hno" in
      assert (n : ~ P)
        by (let p := fresh in intros p; apply H in p; discriminate p);
      clear H
  | None = None <-> ?P =>
      let y := fresh "Hyes" in
      assert (y : P) by (apply H; reflexivity);
      clear H
  end.

(** The analysis of either script raises exactly when one of the two
    spectra is malformed: its power and frequency arrays differ in
    length (the boolean index fails) or none of its frequencies is at
    most 10 Hz ([np.argmax] of an empty selection).  The tremor ratio
    alone raises only in the first case: its division is guarded. *)
Theorem assessment_raises_iff (fa pa fg pg : list Q) (ma mg : Q) :
  let malformed freqs psd :=
    length freqs <> length psd \/ Forall (fun f => 10 < f) freqs in
  (Mpu6050.assess fa pa fg pg = None <-> malformed fa pa \/ malformed fg pg)
  /\ (Spiral.assess fa pa fg pg ma mg = None
      <-> malformed fa pa \/ malformed fg pg)
  /\ (Spectral.tremor_ratio fa pa = None <-> length fa <> length pa).
Proof.
  intros malformed. subst malformed. cbv beta.
  pose proof (tremor_ratio_None_iff fa pa) as Hra.
  pose proof (tremor_ratio_None_iff fg pg) as Hrg.
  pose proof (peak_freq_None_iff fa pa) as Hpa.
  pose proof (peak_freq_None_iff fg pg) as Hpg.
  split; [| split; [| exact Hra]];
    unfold Mpu6050.assess, Spiral.assess;
    destruct (Spectral.tremor_ratio fa pa) as [ra |],
      (Spectral.tremor_ratio fg pg) as [rg |],
      (Spectral.peak_freq fa pa) as [ppa |],
      (Spectral.peak_freq fg pg) as [ppg |];
    settle_option Hra; settle_option Hrg;
    settle_option Hpa; settle_option Hpg;
    (split; [intros H; try discriminate H; tauto
            | intros H; try reflexivity; tauto]).
Qed.

Example assess_no_low_bin :
  Mpu6050.assess [11; 12] [1; 2] [0; 5] [1; 2] = None.
Proof. reflexivity. Qed.

Example assess_length_mismatch :
  Spiral.assess [0; 5] [1; 2; 3] [0; 5] [1; 2] 0 0 = None.
Proof. reflexivity. Qed.

(** ** Peak-to-peak amplitude *)

Lemma max_from_spec (l : list Q) (best : Q) :
  best <= Metrics.max_from best l
  /\ Forall (fun x => x <= Metrics.max_from best l) l
  /\ In (Metrics.max_from best l) (best :: l).
Proof.
  revert best. induction l as [| x l IH]; intros best; simpl.
  - repeat split; [apply Qle_refl | constructor | left; reflexivity].
  - destruct (ltb_spec best x) as [Hlt | Hge];
      destruct (IH (if true then x else best)) as [H1 [H2 H3]];
      destruct (IH best) as [K1 [K2 K3]]; simpl in *.
    + repeat split; [lra | constructor; assumption |].
      destruct H3 as [H3 | H3]; [right; left; exact H3 | right; right; exact H3].
    + repeat split; [exact K1 | constructor; [lra | exact K2] |].
      destruct K3 as [K3 | K3]; [left; exact K3 | right; right; exact K3].
Qed.

Lemma min_from_spec (l : list Q) (best : Q) :
  Metrics.min_from best l <= best
  /\ Forall (fun x => Metrics.min_from best l <= x) l
  /\ In (Metrics.min_from best l) (best :: l).
Proof.
  revert best. induction l as [| x l IH]; intros best; simpl.
  - repeat split; [apply Qle_refl | constructor | left; reflexivity].
  - destruct (ltb_spec x best) as [Hlt | Hge];
      destruct (IH x) as [H1 [H2 H3]];
      destruct (IH best) as [K1 [K2 K3]]; simpl in *.
    + repeat split; [lra | constructor; assumption |].
      destruct H3 as [H3 | H3]; [right; left; exact H3 | right; right; exact H3].
    + repeat split; [exact K1 | constructor; [lra | exact K2] |].
      destruct K3 as [K3 | K3]; [left; exact K3 | right; right; exact K3].
Qed.

Lemma amax_spec (l : list Q) (hi : Q) :
  Metrics.amax l = Some hi -> In hi l /\ Forall (fun x => x <= hi) l.
Proof.
  destruct l as [| x l]; [discriminate |]. simpl. intros H.
  injection H as <-. destruct (max_from_spec l x) as [H1 [H2 H3]].
  split; [exact H3 | constructor; assumption].
Qed.

Lemma amin_spec (l : list Q) (lo : Q) :
  Metrics.amin l = Some lo -> In lo l /\ Forall (fun x => lo <= x) l.
Proof.
  destruct l as [| x l]; [discriminate |]. simpl. intros H.
  injection H as <-. destruct (min_from_spec l x) as [H1 [H2 H3]].
  split; [exact H3 | constructor; assumption].
Qed.

(** The peak-to-peak amplitude of a non-empty series is the difference
    of two of its samples, is never negative, bounds the difference of
    any two samples, and is 0 exactly when the series is constant. *)
Theorem tremor_p2p_spread (filtered : list Q) :
  filtered <> [] ->
  exists hi lo,
    Metrics.tremor_p2p filtered = Some (hi - lo)
    /\ In hi filtered /\ In lo filtered
    /\ 0 <= hi - lo
    /\ (forall x y, In x filtered -> In y filtered -> x - y <= hi - lo)
    /\ (hi - lo == 0
        <-> forall x y, In x filtered -> In y filtered -> x == y).
Proof.
  intros Hne. unfold Metrics.tremor_p2p.
  destruct (Metrics.amax filtered) as [hi |] eqn:Ehi;
    [| destruct filtered; [congruence | discriminate]].
  destruct (Metrics.amin filtered) as [lo |] eqn:Elo;
    [| destruct filtered; [congruence | discriminate]].
  destruct (amax_spec filtered hi Ehi) as [Hin_hi Hmax].
  destruct (amin_spec filtered lo Elo) as [Hin_lo Hmin].
  rewrite Forall_forall in Hmax, Hmin.
  exists hi, lo. repeat split; try assumption.
  - specialize (Hmax lo Hin_lo). lra.
  - intros x y Hx Hy. specialize (Hmax x Hx). specialize (Hmin y Hy). lra.
  - intros H x y Hx Hy.
    pose proof (Hmax x Hx). pose proof (Hmin x Hx).
    pose proof (Hmax y Hy). pose proof (Hmin y Hy). lra.
  - intros H. specialize (H hi lo Hin_hi Hin_lo). lra.
Qed.

Lemma tremor_p2p_spread_witness :
  exists hi lo,
    Metrics.tremor_p2p [0.2; -0.5; 0.7; 0.1] = Some (hi - lo)
    /\ In hi [0.2; -0.5; 0.7; 0.1] /\ In lo [0.2; -0.5; 0.7; 0.1]
    /\ 0 <= hi - lo
    /\ (forall x y, In x [0.2; -0.5; 0.7; 0.1] ->
                    In y [0.2; -0.5; 0.7; 0.1] -> x - y <= hi - lo)
    /\ (hi - lo == 0
        <-> forall x y, In x [0.2; -0.5; 0.7; 0.1] ->
                        In y [0.2; -0.5; 0.7; 0.1] -> x == y).
Proof.
  apply (tremor_p2p_spread [0.2; -0.5; 0.7; 0.1]). discriminate.
Defined.

Example tremor_p2p_value :
  option_map Qred (Metrics.tremor_p2p [0.2; -0.5; 0.7; 0.1]) = Some (6 # 5).
Proof. reflexivity. Qed.

Example tremor_p2p_empty : Metrics.tremor_p2p [] = None.
Proof. reflexivity. Qed.

(** ** Movement smoothness *)

















Example smoothness_score_value :
  option_map Qred (Metrics.smoothness_score [9.81; 9.82; 9.80; 9.81])
  = Some (4 # 3).
Proof. reflexivity. Qed.

Example smoothness_score_one_sample :
  Metrics.smoothness_score [9.81] = None.
Proof. reflexivity. Qed.

(* ================================================================== *)
(** * What is printed agrees with the status *)
(* ================================================================== *)

Lemma level_HIGH (x significant mild : Q) :
  Feedback.level x significant mild = Feedback.HIGH
  <-> (x >? significant)%num = true.
Proof.
  unfold Feedback.level.
  destruct (x >? significant)%num, (x >? mild)%num;
    split; intros H; try reflexivity; discriminate.
Qed.

Lemma level_normal (x significant mild : Q) :
  Feedback.level x significant mild = Feedback.normal
  <-> (x >? significant)%num = false /\ (x >? mild)%num = false.
Proof.
  unfold Feedback.level.
  destruct (x >? significant)%num, (x >? mild)%num;
    split; intros H; try (split; reflexivity); try reflexivity;
    try discriminate; destruct H; discriminate.
Qed.

Lemma any_HIGH (ra rg ma mg : Q) :
  (Feedback.ratio_level ra = Feedback.HIGH
   \/ Feedback.ratio_level rg = Feedback.HIGH
   \/ Feedback.rms_accel_level ma = Feedback.HIGH
   \/ Feedback.rms_gyro_level mg = Feedback.HIGH)
  <-> Spiral.high_tremor_ratio ra rg || Spiral.high_amplitude ma mg = true.
Proof.
  unfold Feedback.ratio_level, Feedback.rms_accel_level,
    Feedback.rms_gyro_level, Spiral.high_tremor_ratio, Spiral.high_amplitude.
  rewrite !level_HIGH, !orb_true_iff. tauto.
Qed.

Lemma all_normal (ra rg ma mg : Q) :
  (Feedback.ratio_level ra = Feedback.normal
   /\ Feedback.ratio_level rg = Feedback.normal
   /\ Feedback.rms_accel_level ma = Feedback.normal
   /\ Feedback.rms_gyro_level mg = Feedback.normal)
  <-> Spiral.high_tremor_ratio ra rg || Spiral.high_amplitude ma mg = false
      /\ Spiral.moderate_tremor_ratio ra rg
         || Spiral.moderate_amplitude ma mg = false.
Proof.
  unfold Feedback.ratio_level, Feedback.rms_accel_level,
    Feedback.rms_gyro_level, Spiral.high_tremor_ratio, Spiral.high_amplitude,
    Spiral.moderate_tremor_ratio, Spiral.moderate_amplitude.
  rewrite !level_normal, !orb_false_iff. tauto.
Qed.

(** The marks printed beside the four diagnostic values and the status
    agree.  With a peak frequency in the band, the status is
    SIGNIFICANT exactly when a value is marked HIGH, NO SIGNIFICANT
    TREMOR exactly when all four are marked normal, and MILD in
    between.  With no peak frequency in the band the status is NO
    SIGNIFICANT TREMOR whatever the marks. *)
Theorem diagnostic_marks_agree_with_status
        (ratio_accel ratio_gyro rms_accel rms_gyro
         peak_freq_accel peak_freq_gyro : Q) :
  let s := Spiral.tremor_status ratio_accel ratio_gyro rms_accel rms_gyro
                                peak_freq_accel peak_freq_gyro in
  let some_high :=
    Feedback.ratio_level ratio_accel = Feedback.HIGH
    \/ Feedback.ratio_level ratio_gyro = Feedback.HIGH
    \/ Feedback.rms_accel_level rms_accel = Feedback.HIGH
    \/ Feedback.rms_gyro_level rms_gyro = Feedback.HIGH in
  let all_normal :=
    Feedback.ratio_level ratio_accel = Feedback.normal
    /\ Feedback.ratio_level ratio_gyro = Feedback.normal
    /\ Feedback.rms_accel_level rms_accel = Feedback.normal
    /\ Feedback.rms_gyro_level rms_gyro = Feedback.normal in
  (Spiral.correct_frequency peak_freq_accel peak_freq_gyro = true ->
   (s = Spiral.SIGNIFICANT_ACTION_TREMOR <-> some_high)
   /\ (s = Spiral.NO_SIGNIFICANT_TREMOR <-> all_normal)
   /\ (s = Spiral.MILD_ACTION_TREMOR <-> ~ some_high /\ ~ all_normal))
  /\ (Spiral.correct_frequency peak_freq_accel peak_freq_gyro = false ->
      s = Spiral.NO_SIGNIFICANT_TREMOR).
Proof.
  intros s some_high all_normal. subst s some_high all_normal.
  rewrite any_HIGH, all_normal. unfold Spiral.tremor_status.
  destruct (Spiral.correct_frequency peak_freq_accel peak_freq_gyro),
    (Spiral.high_tremor_ratio ratio_accel ratio_gyro
     || Spiral.high_amplitude rms_accel rms_gyro),
    (Spiral.moderate_tremor_ratio ratio_accel ratio_gyro
     || Spiral.moderate_amplitude rms_accel rms_gyro); simpl;
    intuition (try discriminate; try congruence).
Qed.

Example marks_high_but_out_of_band :
  Feedback.ratio_level 0.9 = Feedback.HIGH
  /\ Spiral.tremor_status 0.9 0.9 5 50 3 7 = Spiral.NO_SIGNIFICANT_TREMOR.
Proof. repeat split. Qed.

(** ** The advice, in double precision *)

(** The two products of the tuning suggestion, as they are rounded. *)
Lemma tuning_thresholds :
  (Spiral_float64.RATIO_MILD * 0.7 = 0.13999999999999999
   /\ Spiral_float64.RMS_ACCEL_MILD * 0.7 = 0.24499999999999997)%float.
Proof. split; reflexivity. Qed.

Lemma status_without_frequency (ra rg ma mg pa pg : float) :
  Spiral_float64.correct_frequency pa pg = false ->
  Spiral_float64.tremor_status ra rg ma mg pa pg
  = Spiral.NO_SIGNIFICANT_TREMOR.
Proof.
  intros H. unfold Spiral_float64.tremor_status. rewrite H. reflexivity.
Qed.

Lemma status_none_in_band (ra rg ma mg pa pg : float) :
  Spiral_float64.correct_frequency pa pg = true ->
  Spiral_float64.tremor_status ra rg ma mg pa pg
  = Spiral.NO_SIGNIFICANT_TREMOR ->
  (0.20 <? ra)%float = false /\ (0.20 <? rg)%float = false
  /\ (0.35 <? ma)%float = false /\ (10 <? mg)%float = false.
Proof.
  intros Hfreq. unfold Spiral_float64.tremor_status. rewrite Hfreq. simpl.
  destruct (Spiral_float64.high_tremor_ratio ra rg
            || Spiral_float64.high_amplitude ma mg); [discriminate |].
  destruct (Spiral_float64.moderate_tremor_ratio ra rg
            || Spiral_float64.moderate_amplitude ma mg) eqn:E;
    [discriminate |].
  intros _. apply orb_false_iff in E. destruct E as [Er Ea].
  apply orb_false_iff in Er, Ea. destruct Er as [E1 E2], Ea as [E3 E4].
  repeat split; assumption.
Qed.

Lemma suggestion_cases (s : Spiral.Status) (ra ma : float) :
  (Spiral_float64.suggestion s ra ma = Feedback.RaiseThresholds
   <-> s <> Spiral.NO_SIGNIFICANT_TREMOR)
  /\ (Spiral_float64.suggestion s ra ma = Feedback.LowerThresholds
      <-> s = Spiral.NO_SIGNIFICANT_TREMOR
          /\ ((0.13999999999999999 <? ra)%float = true
              \/ (0.24499999999999997 <? ma)%float = true)).
Proof.
  unfold Spiral_float64.suggestion, Binary64.gtb.
  destruct tuning_thresholds as [-> ->].
  destruct (0.13999999999999999 <? ra)%float,
    (0.24499999999999997 <? ma)%float;
    destruct s; simpl; (split; split); intros H;
    try discriminate H; try reflexivity; try congruence; try tauto;
    try (split; [reflexivity | tauto]);
    try (destruct H as [H _]; discriminate H);
    try (destruct H as [_ [H | H]]; discriminate H).
Qed.

Lemma notes_cases (ra rg ma mg pa pg : float) :
  let s := Spiral_float64.tremor_status ra rg ma mg pa pg in
  let ns := Spiral_float64.notes ra rg ma mg pa pg in
  (s <> Spiral.NO_SIGNIFICANT_TREMOR -> ns = [])
  /\ (In Feedback.PeakOutsideBand ns
      <-> Spiral_float64.correct_frequency pa pg = false)
  /\ (In Feedback.MinorComponent ns ->
      ((0.1 <? ra)%float = true \/ (0.1 <? rg)%float = true)
      /\ (0.20 <? ra)%float = false /\ (0.20 <? rg)%float = false).
Proof.
  intros s ns. subst ns. unfold Spiral_float64.notes. fold s.
  pose proof (status_without_frequency ra rg ma mg pa pg) as Hout.
  pose proof (status_none_in_band ra rg ma mg pa pg) as Hin.
  fold s in Hout, Hin. clearbody s. unfold Binary64.gtb.
  split; [| split].
  - intros Hs. destruct s; try reflexivity. congruence.
  - destruct (Spiral_float64.correct_frequency pa pg).
    + split; [| discriminate]. intros H. exfalso.
      destruct s; simpl in H; try contradiction.
      apply in_app_or in H. destruct H as [H | H].
      * destruct ((0.1 <? ra)%float || (0.1 <? rg)%float); simpl in H;
          [destruct H as [H | H]; [discriminate H | contradiction] |
           contradiction].
      * destruct ((0.2 <? ma)%float || (5 <? mg)%float); simpl in H;
          [destruct H as [H | H]; [discriminate H | contradiction] |
           contradiction].
    + split; [reflexivity |]. intros _. rewrite (Hout eq_refl).
      simpl. left. reflexivity.
  - intros H. destruct s; simpl in H; try contradiction.
    apply in_app_or in H. destruct H as [H | H].
    + destruct (Spiral_float64.correct_frequency pa pg); simpl in H.
      * destruct (Hin eq_refl eq_refl) as [H1 [H2 _]].
        destruct (0.1 <? ra)%float, (0.1 <? rg)%float; simpl in H;
          try contradiction; repeat split; try assumption; tauto.
      * destruct H as [H | H]; [discriminate H | contradiction].
    + destruct ((0.2 <? ma)%float || (5 <? mg)%float); simpl in H;
        [destruct H as [H | H]; [discriminate H | contradiction] |
         contradiction].
Qed.

(** The advice printed under the status fits it, on the doubles the
    script computes with.  Raising the thresholds is suggested exactly
    when a tremor was reported; lowering them exactly when none was
    and the accelerometer ratio exceeds the double
    0.13999999999999999 or the accelerometer RMS the double
    0.24499999999999997, which are what [RATIO_MILD*0.7] and
    [RMS_ACCEL_MILD*0.7] round to; the notes appear only under NO
    SIGNIFICANT TREMOR; the note on a peak outside the band appears
    exactly when no peak frequency lies in [4, 6]; the note on a minor
    component means a ratio above 0.1 with neither ratio above the
    mild threshold 0.20. *)
Theorem advice_fits_status
        (ratio_accel ratio_gyro rms_accel rms_gyro
         peak_freq_accel peak_freq_gyro : float) :
  let s := Spiral_float64.tremor_status ratio_accel ratio_gyro
                                        rms_accel rms_gyro
                                        peak_freq_accel peak_freq_gyro in
  let advice := Spiral_float64.suggestion s ratio_accel rms_accel in
  let ns := Spiral_float64.notes ratio_accel ratio_gyro rms_accel rms_gyro
                                 peak_freq_accel peak_freq_gyro in
  (advice = Feedback.RaiseThresholds <-> s <> Spiral.NO_SIGNIFICANT_TREMOR)
  /\ (advice = Feedback.LowerThresholds
      <-> s = Spiral.NO_SIGNIFICANT_TREMOR
          /\ ((0.13999999999999999 <? ratio_accel)%float = true
              \/ (0.24499999999999997 <? rms_accel)%float = true))
  /\ (s <> Spiral.NO_SIGNIFICANT_TREMOR -> ns = [])
  /\ (In Feedback.PeakOutsideBand ns
      <-> Spiral_float64.correct_frequency peak_freq_accel peak_freq_gyro
          = false)
  /\ (In Feedback.MinorComponent ns ->
      ((0.1 <? ratio_accel)%float = true
       \/ (0.1 <? ratio_gyro)%float = true)
      /\ (0.20 <? ratio_accel)%float = false
      /\ (0.20 <? ratio_gyro)%float = false).
Proof.
  intros s advice ns.
  destruct (suggestion_cases s ratio_accel rms_accel) as [Hraise Hlower].
  destruct (notes_cases ratio_accel ratio_gyro rms_accel rms_gyro
              peak_freq_accel peak_freq_gyro) as [Hnone [Hpeak Hminor]].
  split; [exact Hraise |]. split; [exact Hlower |].
  split; [exact Hnone |]. split; [exact Hpeak | exact Hminor].
Qed.

(** At a ratio of 0.14 lowering is suggested: 0.14 is above the
    rounded product.  At the product itself it is not. *)
Example lowering_at_0_14 :
  Spiral_float64.suggestion
    (Spiral_float64.tremor_status 0.14 0 0 0 5 5) 0.14 0
  = Feedback.LowerThresholds
  /\ Spiral_float64.suggestion
       (Spiral_float64.tremor_status 0.13999999999999999 0 0 0 5 5)
       0.13999999999999999 0
     = Feedback.WellCalibrated.
Proof. split; reflexivity. Qed.

(** Marked HIGH and out of band: no tremor is reported and lowering
    the thresholds is suggested. *)
Example advice_high_but_out_of_band :
  Spiral_float64.tremor_status 0.9 0.9 5 50 3 7
  = Spiral.NO_SIGNIFICANT_TREMOR
  /\ Spiral_float64.suggestion
       (Spiral_float64.tremor_status 0.9 0.9 5 50 3 7) 0.9 5
     = Feedback.LowerThresholds.
Proof. split; reflexivity. Qed.

(* ================================================================== *)
(** * Bringing the sensor up *)
(* ================================================================== *)

Lemma sum_app (l1 l2 : list Q) :
  Numpy.sum (l1 ++ l2) == Numpy.sum l1 + Numpy.sum l2.
Proof.
  induction l1 as [| x l1 IH]; simpl app.
  - unfold Numpy.sum at 2. simpl. ring.
  - rewrite !sum_cons, IH. ring.
Qed.

(** One attempt: it succeeds after four operations and two pauses of
    0.1 s, or it raises at its first failing operation, having paused
    at most once. *)
Lemma init_attempt_cases (w : World) :
  (exists w',
      Init.init_attempt w = (Return 0x68%Z, w')
      /\ slept w' = 0.1 :: 0.1 :: slept w
      /\ oracle w' = oracle w
      /\ transactions w' = (4 + transactions w)%nat)
  \/ (exists e w' pause,
         Init.init_attempt w = (Raise e, w')
         /\ slept w' = pause ++ slept w
         /\ (pause = [] \/ pause = [0.1])
         /\ oracle w' = oracle w
         /\ (transactions w' <= 4 + transactions w)%nat).
Proof.
  unfold Init.init_attempt, Init.wake_and_configure, Init.open_bus,
    Init.write_byte_data, bind, sleep, ret.
  cbn [oracle transactions slept].
  destruct (oracle w (transactions w) (-1)%Z 1%Z) as [v0 | e0];
    [| right; exists e0; eexists; exists []; repeat split;
       [left; reflexivity | simpl; lia]].
  destruct (oracle w (S (transactions w)) 0x68%Z 0x6B%Z) as [v1 | e1];
    [| right; exists e1; eexists; exists []; repeat split;
       [left; reflexivity | simpl; lia]].
  destruct (oracle w (S (S (transactions w))) 0x68%Z 0x1C%Z) as [v2 | e2];
    [| right; exists e2; eexists; exists [0.1]; repeat split;
       [right; reflexivity | simpl; lia]].
  destruct (oracle w (S (S (S (transactions w)))) 0x68%Z 0x1B%Z)
    as [v3 | e3];
    [| right; exists e3; eexists; exists [0.1]; repeat split;
       [right; reflexivity | simpl; lia]].
  left. eexists. repeat split.
Qed.

Lemma init_mpu6050_loop_outcomes (n : nat) :
  forall w : World,
  exists new,
    slept (snd (Init.init_mpu6050_loop n w)) = new ++ slept w
    /\ (transactions (snd (Init.init_mpu6050_loop n w))
        <= 4 * n + transactions w)%nat
    /\ oracle (snd (Init.init_mpu6050_loop n w)) = oracle w
    /\ match fst (Init.init_mpu6050_loop n w) with
       | Return address =>
           address = 0x68%Z
           /\ exists older,
               new = 0.1 :: 0.1 :: older
               /\ Numpy.sum older <= 1.1 * (inject_Z (Z.of_nat n) - 1)
       | Raise OSError => False
       | Raise KeyboardInterrupt =>
           Numpy.sum new <= 1.1 * inject_Z (Z.of_nat n)
       | Raise OtherException =>
           inject_Z (Z.of_nat n) <= Numpy.sum new
           /\ Numpy.sum new <= 1.1 * inject_Z (Z.of_nat n)
       end.
Proof.
  induction n as [| n IH]; intros w.
  - exists []. simpl. repeat split; try lia; discriminate.
  - assert (Hn : inject_Z (Z.of_nat (S n)) == inject_Z (Z.of_nat n) + 1).
    { rewrite Nat2Z.inj_succ. unfold Z.succ. rewrite inject_Z_plus.
      reflexivity. }
    assert (Hn0 : 0 <= inject_Z (Z.of_nat n)).
    { replace 0 with (inject_Z 0) by reflexivity. rewrite <- Zle_Qle. lia. }
    cbn [Init.init_mpu6050_loop]. unfold Init.catch_Exception.
    destruct (init_attempt_cases w)
      as [[w' [E [Hs [Ho Ht]]]] | [e [w' [pause [E [Hs [Hp [Ho Ht]]]]]]]].
    + rewrite E. cbn [fst snd]. exists [0.1; 0.1].
      split; [assumption |]. split; [lia |]. split; [assumption |].
      split; [reflexivity |].
      exists []. split; [reflexivity |].
      rewrite Hn. unfold Numpy.sum. simpl fold_left. lra.
    + rewrite E.
      assert (Hpause : 0 <= Numpy.sum pause /\ Numpy.sum pause <= 0.1).
      { destruct Hp as [-> | ->]; split; discriminate. }
      destruct e.
      * (* OSError: handled *)
        cbv beta iota.
        change ((sleep 1 ;;; Init.init_mpu6050_loop n)%io w')
          with (Init.init_mpu6050_loop n
                  (mkWorld (oracle w') (transactions w') (1 :: slept w'))).
        destruct (IH (mkWorld (oracle w') (transactions w') (1 :: slept w')))
          as [new [Hnew [Htr [Hor Hres]]]].
        cbn [slept transactions oracle] in Hnew, Htr, Hor.
        exists (new ++ 1 :: pause).
        split; [rewrite Hnew, Hs, <- app_assoc; reflexivity |].
        split; [lia |]. split; [congruence |].
        revert Hres.
        destruct (fst (Init.init_mpu6050_loop n _)) as [a | [ | | ]];
          intros Hres.
        -- destruct Hres as [Ha [older [Hold Hsum]]]. split; [exact Ha |].
           exists (older ++ 1 :: pause). split; [rewrite Hold; reflexivity |].
           rewrite sum_app, sum_cons, Hn. lra.
        -- exact Hres.
        -- rewrite sum_app, sum_cons, Hn. lra.
        -- rewrite sum_app, sum_cons, Hn. lra.
      * (* KeyboardInterrupt: not handled *)
        cbv beta iota. cbn [fst snd]. exists pause.
        split; [assumption |]. split; [lia |]. split; [assumption |].
        rewrite Hn. lra.
      * (* any other exception: handled *)
        cbv beta iota.
        change ((sleep 1 ;;; Init.init_mpu6050_loop n)%io w')
          with (Init.init_mpu6050_loop n
                  (mkWorld (oracle w') (transactions w') (1 :: slept w'))).
        destruct (IH (mkWorld (oracle w') (transactions w') (1 :: slept w')))
          as [new [Hnew [Htr [Hor Hres]]]].
        cbn [slept transactions oracle] in Hnew, Htr, Hor.
        exists (new ++ 1 :: pause).
        split; [rewrite Hnew, Hs, <- app_assoc; reflexivity |].
        split; [lia |]. split; [congruence |].
        revert Hres.
        destruct (fst (Init.init_mpu6050_loop n _)) as [a | [ | | ]];
          intros Hres.
        -- destruct Hres as [Ha [older [Hold Hsum]]]. split; [exact Ha |].
           exists (older ++ 1 :: pause). split; [rewrite Hold; reflexivity |].
           rewrite sum_app, sum_cons, Hn. lra.
        -- exact Hres.
        -- rewrite sum_app, sum_cons, Hn. lra.
        -- rewrite sum_app, sum_cons, Hn. lra.
Qed.

(** [init_mpu6050] never lets an [OSError] out.  It returns the device
    address 0x68 after two pauses of 0.1 s, having slept at most 2.2 s
    before; or it gives up with a plain exception after three failed
    attempts and between 3 and 3.3 s of sleep; only a
    [KeyboardInterrupt] passes through at once.  It makes at most
    twelve bus operations.  Where the unguarded initialisation of the
    resting script succeeds, [init_mpu6050] does the same and no
    more. *)
Theorem init_mpu6050_outcomes (w : World) :
  (exists new,
      slept (snd (Init.init_mpu6050 w)) = new ++ slept w
      /\ (transactions (snd (Init.init_mpu6050 w)) <= 12 + transactions w)%nat
      /\ match fst (Init.init_mpu6050 w) with
         | Return address =>
             address = 0x68%Z
             /\ exists older,
                 new = 0.1 :: 0.1 :: older /\ Numpy.sum older <= 2.2
         | Raise OSError => False
         | Raise KeyboardInterrupt => Numpy.sum new <= 3.3
         | Raise OtherException => 3 <= Numpy.sum new /\ Numpy.sum new <= 3.3
         end)
  /\ (forall address w',
         Init.resting_init w = (Return address, w') ->
         Init.init_mpu6050 w = (Return address, w')).
Proof.
  split.
  - destruct (init_mpu6050_loop_outcomes 3 w)
      as [new [Hnew [Htr [_ Hres]]]].
    fold Init.init_mpu6050 in Hnew, Htr, Hres.
    exists new. split; [exact Hnew |]. split; [exact Htr |].
    destruct (fst (Init.init_mpu6050 w)) as [a | [ | | ]].
    + destruct Hres as [Ha [older [Hold Hsum]]]. split; [exact Ha |].
      exists older. split; [exact Hold |].
      assert (H3 : inject_Z (Z.of_nat 3) == 3) by reflexivity.
      rewrite H3 in Hsum. lra.
    + exact Hres.
    + assert (H3 : inject_Z (Z.of_nat 3) == 3) by reflexivity.
      rewrite H3 in Hres. lra.
    + assert (H3 : inject_Z (Z.of_nat 3) == 3) by reflexivity.
      rewrite H3 in Hres. lra.
  - intros address w' H.
    change (Init.resting_init w) with (Init.init_attempt w) in H.
    unfold Init.init_mpu6050. cbn [Init.init_mpu6050_loop].
    unfold Init.catch_Exception. rewrite H. reflexivity.
Qed.

Example init_after_two_faults :
  fst (Init.init_mpu6050 (Scenario.flaky 2 Scenario.sample_registers))
  = Return 0x68%Z
  /\ slept (snd (Init.init_mpu6050 (Scenario.flaky 2 Scenario.sample_registers)))
     = [0.1; 0.1; 1; 1]
  /\ fst (Init.resting_init (Scenario.flaky 2 Scenario.sample_registers))
     = Raise OSError.
Proof. repeat split. Qed.

Example init_gives_up :
  Init.init_mpu6050 (Scenario.flaky 3 Scenario.sample_registers)
  = (Raise OtherException,
     mkWorld (oracle (Scenario.flaky 3 Scenario.sample_registers)) 3
             [1; 1; 1]).
Proof. reflexivity. Qed.

(* ================================================================== *)
(** * The retry wrapper for any number of attempts *)
(* ================================================================== *)

Lemma read_word_cost (addr reg : Z) (w : World) :
  (transactions (snd (Mpu6050.read_word addr reg w)) <= 2 + transactions w)%nat
  /\ oracle (snd (Mpu6050.read_word addr reg w)) = oracle w
  /\ fst (Mpu6050.read_word addr reg w) <> Return None.
Proof.
  unfold Mpu6050.read_word, Mpu6050.read_word_2c, bind, read_byte_data, ret.
  cbn [oracle transactions slept].
  destruct (oracle w (transactions w) addr reg); cbn;
    [| repeat split; [lia | discriminate]].
  destruct (oracle w (S (transactions w)) addr (reg + 1)%Z); cbn;
    repeat split; try lia; discriminate.
Qed.

Lemma retry_read_word_cost (addr reg : Z) (backoff : Q) (budget : nat) :
  forall w : World,
    (transactions (snd (Spec.retry budget backoff
                          (Mpu6050.read_word addr reg) w))
     <= 2 * S budget + transactions w)%nat
    /\ fst (Spec.retry budget backoff (Mpu6050.read_word addr reg) w)
       <> Return None.
Proof.
  induction budget as [| budget IH]; intros w.
  - pose proof (read_word_cost addr reg w) as [Hc [_ Hn]].
    cbn [Spec.retry].
    destruct (Mpu6050.read_word addr reg w) as [[v | [ | | ]] w1];
      cbn [fst snd] in *;
      (split; [clear Hn; lia | try assumption; discriminate]).
  - pose proof (read_word_cost addr reg w) as [Hc [_ Hn]].
    cbn [Spec.retry].
    destruct (Mpu6050.read_word addr reg w) as [[v | [ | | ]] w1];
      cbn [fst snd] in *;
      try (split; [clear Hn; lia | try assumption; discriminate]).
    destruct (IH (snd (sleep backoff w1))) as [IHc IHn].
    change (transactions (snd (sleep backoff w1))) with (transactions w1)
      in IHc.
    split; [clear Hn IHn; lia | exact IHn].
Qed.

(** [read_word_2c_safe] for any [max_retries].  With [max_retries = 0]
    it returns [None] without touching the bus, and the conversion of
    the sample then raises a [TypeError], not an [OSError].  With
    [max_retries >= 1] it is the retry policy with [max_retries - 1]
    retries, never returns [None], and makes at most
    [2 * max_retries] bus transactions. *)
Theorem read_word_2c_safe_any_budget (max_retries : nat) (addr reg : Z)
        (w : World) :
  (max_retries = 0%nat ->
   Spiral.read_word_2c_safe_with max_retries addr reg w = (Return None, w)
   /\ read_sample (Spiral.read_word_2c_safe_with max_retries) addr w
      = (Raise OtherException, w))
  /\ (forall budget, max_retries = S budget ->
        Spiral.read_word_2c_safe_with max_retries addr reg w
        = Spec.retry budget 0.01 (Mpu6050.read_word addr reg) w
        /\ fst (Spiral.read_word_2c_safe_with max_retries addr reg w)
           <> Return None
        /\ (transactions
              (snd (Spiral.read_word_2c_safe_with max_retries addr reg w))
            <= 2 * max_retries + transactions w)%nat).
Proof.
  split.
  - intros ->. split; reflexivity.
  - intros budget ->.
    rewrite (read_word_2c_safe_with_retry budget addr reg w).
    destruct (retry_read_word_cost addr reg 0.01 budget w) as [Hc Hn].
    repeat split; assumption.
Qed.

(* ================================================================== *)
(** * The two assessments side by side *)
(* ================================================================== *)






(* ================================================================== *)
(** * Naming the result files *)
(* ================================================================== *)

Lemma replace_spaces_no_space (s : list ascii) :
  ~ In " "%char (Naming.replace_spaces s).
Proof.
  unfold Naming.replace_spaces. intros H. apply in_map_iff in H.
  destruct H as [c [Hc _]].
  destruct (Ascii.eqb c " "%char) eqn:E; [discriminate Hc |].
  subst c. rewrite Ascii.eqb_refl in E. discriminate E.
Qed.

Lemma replace_spaces_keeps (s : list ascii) (c : ascii) :
  c <> " "%char -> In c s -> In c (Naming.replace_spaces s).
Proof.
  intros Hne Hin. unfold Naming.replace_spaces. apply in_map_iff.
  exists c. split; [| exact Hin].
  destruct (Ascii.eqb c " "%char) eqn:E; [| reflexivity].
  apply Ascii.eqb_eq in E. contradiction.
Qed.

Lemma lstrip_suffix (isspace : ascii -> bool) (s : list ascii) :
  exists blanks,
    s = blanks ++ Naming.lstrip isspace s
    /\ Forall (fun c => isspace c = true) blanks
    /\ match Naming.lstrip isspace s with
       | [] => True
       | c :: _ => isspace c = false
       end.
Proof.
  induction s as [| c s [blanks [Hs [Hb Hhead]]]]; simpl.
  - exists []. repeat split. constructor.
  - destruct (isspace c) eqn:E.
    + exists (c :: blanks). repeat split; [| constructor; assumption |
                                           exact Hhead].
      simpl. f_equal. exact Hs.
    + exists []. repeat split; [constructor | exact E].
Qed.

Lemma lstrip_blank (isspace : ascii -> bool) (s : list ascii) :
  Forall (fun c => isspace c = true) s -> Naming.lstrip isspace s = [].
Proof.
  induction 1 as [| c s Hc Hs IH]; simpl; [reflexivity |].
  rewrite Hc. exact IH.
Qed.

Lemma strip_blank (isspace : ascii -> bool) (s : list ascii) :
  Forall (fun c => isspace c = true) s -> Naming.strip isspace s = [].
Proof.
  intros H. unfold Naming.strip. rewrite (lstrip_blank isspace s H).
  reflexivity.
Qed.

Lemma strip_sublist (isspace : ascii -> bool) (s : list ascii) (c : ascii) :
  In c (Naming.strip isspace s) -> In c s.
Proof.
  unfold Naming.strip, Naming.rstrip. intros H.
  apply in_rev in H.
  destruct (lstrip_suffix isspace (rev (Naming.lstrip isspace s)))
    as [b1 [E1 _]].
  assert (H1 : In c (rev (Naming.lstrip isspace s))).
  { rewrite E1. apply in_or_app. right. exact H. }
  apply in_rev in H1.
  destruct (lstrip_suffix isspace s) as [b2 [E2 _]].
  rewrite E2. apply in_or_app. right. exact H1.
Qed.

(** The file name never has a blank from the patient's name and never
    lacks a patient: a name of blanks only, or none, becomes
    "Unknown", and every space within the name becomes an underscore;
    every other character of the name, a path separator too, is kept
    as typed.  The test number is not rewritten: the file name holds a
    space exactly when the test number or the timestamp does. *)
Theorem filename_spaces (isspace : ascii -> bool)
        (label typed_name typed_number timestamp : list ascii) :
  ~ In " "%char label ->
  let patient := Naming.replace_spaces (Naming.patient_name isspace typed_name) in
  let number := Naming.test_number isspace typed_number in
  let name := Naming.filename label (Naming.patient_name isspace typed_name)
                              number timestamp in
  name = patient ++ ["_"%char] ++ label ++ number ++ ["_"%char] ++ timestamp
  /\ patient <> []
  /\ ~ In " "%char patient
  /\ (Forall (fun c => isspace c = true) typed_name ->
      patient = String.list_ascii_of_string "Unknown"%string)
  /\ (forall c, c <> " "%char ->
                In c (Naming.strip isspace typed_name) -> In c name)
  /\ (In " "%char name <-> In " "%char number \/ In " "%char timestamp)
  /\ (number <> []
      /\ (Naming.strip isspace typed_number <> [] ->
          forall c, In c number -> In c typed_number)).
Proof.
  intros Hlabel patient number name. subst patient number name.
  unfold Naming.filename.
  split; [reflexivity |]. split; [| split; [| split; [| split; [| split]]]].
  - unfold Naming.patient_name, Naming.or_default.
    destruct (Naming.strip isspace typed_name); discriminate.
  - apply replace_spaces_no_space.
  - intros Hblank. unfold Naming.patient_name.
    rewrite (strip_blank isspace typed_name Hblank). reflexivity.
  - intros c Hc Hin. apply in_or_app. left.
    apply replace_spaces_keeps; [exact Hc |].
    unfold Naming.patient_name, Naming.or_default.
    destruct (Naming.strip isspace typed_name); [contradiction | exact Hin].
  - pose proof (replace_spaces_no_space
                  (Naming.patient_name isspace typed_name)) as Hp.
    rewrite !in_app_iff. simpl.
    split.
    + intros [H | [[H | []] | [H | [H | [[H | []] | H]]]]];
        try contradiction; try discriminate H; tauto.
    + intros [H | H]; tauto.
  - split.
    + unfold Naming.test_number, Naming.or_default.
      destruct (Naming.strip isspace typed_number); discriminate.
    + intros Hne c Hin. unfold Naming.test_number, Naming.or_default in Hin.
      destruct (Naming.strip isspace typed_number) eqn:E; [congruence |].
      rewrite <- E in Hin. eapply strip_sublist. exact Hin.
Qed.

Example resting_filename_example :
  Naming.resting_filename Naming.ascii_space
    (String.list_ascii_of_string "  Ada  Lovelace "%string)
    (String.list_ascii_of_string ""%string)
    (String.list_ascii_of_string "20250101_120000"%string)
  = String.list_ascii_of_string "Ada__Lovelace_test1_20250101_120000"%string.
Proof. reflexivity. Qed.

Example spiral_filename_blank_name :
  Naming.spiral_filename Naming.ascii_space
    (String.list_ascii_of_string "   "%string)
    (String.list_ascii_of_string " 2 b "%string)
    (String.list_ascii_of_string "20250101_120000"%string)
  = String.list_ascii_of_string "Unknown_spiral2 b_20250101_120000"%string.
Proof. reflexivity. Qed.

Lemma filename_spaces_witness :
  let isspace := Naming.ascii_space in
  let label := String.list_ascii_of_string "spiral"%string in
  let typed_name := String.list_ascii_of_string "  Ada  Lovelace "%string in
  let typed_number := String.list_ascii_of_string " 2 b "%string in
  let timestamp := String.list_ascii_of_string "20250101_120000"%string in
  let patient :=
    Naming.replace_spaces (Naming.patient_name isspace typed_name) in
  let number := Naming.test_number isspace typed_number in
  let name := Naming.filename label (Naming.patient_name isspace typed_name)
                              number timestamp in
  name = patient ++ ["_"%char] ++ label ++ number ++ ["_"%char] ++ timestamp
  /\ patient <> []
  /\ ~ In " "%char patient
  /\ (Forall (fun c => isspace c = true) typed_name ->
      patient = String.list_ascii_of_string "Unknown"%string)
  /\ (forall c, c <> " "%char ->
                In c (Naming.strip isspace typed_name) -> In c name)
  /\ (In " "%char name <-> In " "%char number \/ In " "%char timestamp)
  /\ (number <> []
      /\ (Naming.strip isspace typed_number <> [] ->
          forall c, In c number -> In c typed_number)).
Proof.
  apply (filename_spaces Naming.ascii_space
           (String.list_ascii_of_string "spiral"%string)).
  simpl. intros [H | [H | [H | [H | [H | [H | []]]]]]]; discriminate H.
Defined.
